(** * ThorCam: acquisition sessions of the two camera scripts

    A shallow embedding of [opencv_mp4_writer_example.py] (bounded export of
    frames to an MP4 sink) and [video.py] (unbounded live display), and the
    properties of their acquisition loops and teardown sequences.

    The camera SDK, the color-processing SDK, OpenCV and Matplotlib are
    collaborators.  Every call into one of them is recorded as an [event];
    what the collaborators answer (the discovered cameras, the sensor
    properties, the outcome of each poll, whether a disposal raises) is read
    from a [World].  A script is a computation in the monad [M], which
    threads the number of polls issued so far, accumulates the trace of
    events and ends in a [result]: a value, a raised Python exception, or
    [Running] when an unbounded loop has not stopped within the given number
    of iterations. *)

From Stdlib Require Import ZArith QArith Qround Qfield List String Bool Arith Lia.
Import ListNotations.

Local Close Scope Q_scope.
Local Open Scope Z_scope.

(** ** Collaborator data *)

(** [thorlabs_tsi_sdk.tl_camera_enums.SENSOR_TYPE]. *)
Inductive SENSOR_TYPE : Type :=
| MONOCHROME
| BAYER
| MONOCHROME_POLARIZED.

Definition SENSOR_TYPE_eqb (a b : SENSOR_TYPE) : bool :=
  match a, b with
  | MONOCHROME, MONOCHROME => true
  | BAYER, BAYER => true
  | MONOCHROME_POLARIZED, MONOCHROME_POLARIZED => true
  | _, _ => false
  end.

(** [thorlabs_tsi_sdk.tl_color_enums.FORMAT]. *)
Inductive FORMAT : Type :=
| BGR_PLANAR
| BGR_PIXEL
| RGB_PIXEL.

(** [frame.image_buffer]: the samples of one exposure, row after row.  The
    array is of unsigned 16-bit samples; a reshape changes the shape only and
    keeps this sequence. *)
Definition image : Type := list Z.

(** What one call of [camera.get_pending_frame_or_null()] does: it returns a
    frame, returns [None] when the poll timeout elapses, or is cut short by
    the external interrupt (Python raises [KeyboardInterrupt] in the blocked
    call). *)
Inductive poll_outcome : Type :=
| PFrame (image_buffer : image)
| PNull
| PInterrupt.

(** Python exceptions that the scripts can meet. *)
Inductive exn : Type :=
| IndexError
| AttributeError
| TimeoutError (msg : string)
| KeyboardInterrupt
| SdkError (msg : string).

(** [isinstance(e, Exception)]: [KeyboardInterrupt] derives from
    [BaseException] only. *)
Definition is_Exception (e : exn) : bool :=
  match e with
  | KeyboardInterrupt => false
  | _ => true
  end.

(** [str(exception)]. *)
Definition str (e : exn) : string :=
  match e with
  | IndexError => "list index out of range"
  | AttributeError => "'NoneType' object has no attribute 'dispose'"
  | TimeoutError msg => msg
  | KeyboardInterrupt => EmptyString
  | SdkError msg => msg
  end.

(** Handles of the color-processing SDK held in the script's variables
    [mono_to_color_sdk] and [mono_to_color_processor] ([None] until
    assigned). *)
Inductive handle : Type :=
| MonoToColorProcessorSDK_handle
| MonoToColorProcessor_handle.

(** The answers of the collaborators during one run. *)
Record World : Type := mkWorld {
  (** [os.path.exists(full_file_path)] *)
  output_exists : bool;
  (** [sdk.discover_available_cameras()] *)
  cameras : list string;
  camera_sensor_type : SENSOR_TYPE;
  bit_depth : Z;
  image_width_pixels : Z;
  image_height_pixels : Z;
  (** the outcome of the [i]-th poll of the run *)
  polls : nat -> poll_outcome;
  (** [mono_to_color_processor.transform_to_24(image_data, width, height)] *)
  transform_to_24 : image -> Z -> Z -> image;
  (** [Some msg] when [mono_to_color_processor.dispose()] raises *)
  processor_dispose_error : option string;
  (** [Some msg] when [mono_to_color_sdk.dispose()] raises *)
  color_sdk_dispose_error : option string
}.

(** ** Events *)

Inductive event : Type :=
| EPrint (s : string)
| ERemoveFile                                  (* os.remove(full_file_path) *)
| ESdkOpen                                     (* TLCameraSDK().__enter__ *)
| ESdkClose                                    (* TLCameraSDK().__exit__ *)
| EDiscover                                    (* sdk.discover_available_cameras() *)
| EOpenCamera (serial : string)                (* sdk.open_camera(..).__enter__ *)
| ECloseCamera                                 (* camera.__exit__ *)
| ESetProp (name : string) (value : Z)         (* camera.<name> = value *)
| EArm (frames_to_buffer : Z)                  (* camera.arm(2) *)
| ETrigger                                     (* camera.issue_software_trigger() *)
| EPoll                                        (* camera.get_pending_frame_or_null() *)
| EDisarm                                      (* camera.disarm() *)
| ECreateColorSdk                              (* MonoToColorProcessorSDK() *)
| ECreateProcessor                             (* create_mono_to_color_processor(..) *)
| ESetOutputFormat (f : FORMAT)                (* processor.output_format = f *)
| EDisposeProcessor                            (* mono_to_color_processor.dispose() *)
| EDisposeColorSdk                             (* mono_to_color_sdk.dispose() *)
| EOpenSink (width height : Z) (isColor : bool) (* cv2.VideoWriter(..) *)
| EWrite (image_data : image)                  (* mp4_video.write(image_data) *)
| ERelease                                     (* mp4_video.release() *)
| EPlot (call : string)                        (* a pyplot / figure set-up call *)
| EImshow (first_frame : image)                (* ax.imshow(first_frame, ..) *)
| ESetData (frame : image)                     (* img_display.set_data(frame) *)
| EDraw                                        (* fig.canvas.draw() *)
| EFlushEvents.                                (* fig.canvas.flush_events() *)

Definition trace : Type := list event.

(** ** The monad of the scripts *)

Inductive result (A : Type) : Type :=
| Ok (a : A)
| Raise (e : exn)
| Running.

Arguments Ok {A} a.
Arguments Raise {A} e.
Arguments Running {A}.

(** A computation starts with the index of the next poll and gives the events
    it made, the index of the next poll afterwards, and how it ended. *)
Definition M (A : Type) : Type := nat -> trace * nat * result A.

Definition ret {A : Type} (a : A) : M A :=
  fun i => ([], i, Ok a).

Definition bind {A B : Type} (m : M A) (k : A -> M B) : M B :=
  fun i =>
    let '(t1, i1, r1) := m i in
    match r1 with
    | Ok a => let '(t2, i2, r2) := k a i1 in (t1 ++ t2, i2, r2)
    | Raise e => (t1, i1, Raise e)
    | Running => (t1, i1, Running)
    end.

Definition emit (e : event) : M unit :=
  fun i => ([e], i, Ok tt).

Definition raise {A : Type} (e : exn) : M A :=
  fun i => ([], i, Raise e).

(** The loop has used up its iterations and is still going. *)
Definition running {A : Type} : M A :=
  fun i => ([], i, Running).

Declare Scope py_scope.
Delimit Scope py_scope with py.
Notation "x <- m ;; k" := (bind m (fun x => k))
  (at level 61, m at next level, right associativity) : py_scope.
Notation "m ;; k" := (bind m (fun _ => k))
  (at level 61, right associativity) : py_scope.
Local Open Scope py_scope.

(** [try: body  except <those e with handler e = Some h>: h].  A body that is
    still running has not reached its handlers. *)
Definition try_except {A : Type} (body : M A) (handler : exn -> option (M A)) : M A :=
  fun i =>
    let '(t1, i1, r1) := body i in
    match r1 with
    | Raise e =>
        match handler e with
        | Some h => let '(t2, i2, r2) := h i1 in (t1 ++ t2, i2, r2)
        | None => (t1, i1, Raise e)
        end
    | _ => (t1, i1, r1)
    end.

(** [try: body  finally: fin].  The [finally] suite runs when the body has
    returned or raised; an exception of the suite replaces the pending one. *)
Definition try_finally {A : Type} (body : M A) (fin : M unit) : M A :=
  fun i =>
    let '(t1, i1, r1) := body i in
    match r1 with
    | Running => (t1, i1, Running)
    | _ =>
        let '(t2, i2, r2) := fin i1 in
        (t1 ++ t2, i2,
         match r2 with
         | Ok _ => r1
         | Raise e => Raise e
         | Running => Running
         end)
    end.

(** [with <enter> as x: body]; [exit] is the context manager's [__exit__]. *)
Definition with_ {A : Type} (enter exit : event) (body : M A) : M A :=
  emit enter ;; try_finally body (emit exit).

(** [xs[0]] on a Python list. *)
Definition index0 {A : Type} (xs : list A) : M A :=
  match xs with
  | x :: _ => ret x
  | [] => raise IndexError
  end.

(** [handle.<method>(..)] on a variable that may hold [None]. *)
Definition with_handle {A : Type} (h : option handle) (k : M A) : M A :=
  match h with
  | Some _ => k
  | None => raise AttributeError
  end.

Definition run {A : Type} (m : M A) : trace * nat * result A := m O.
Definition trace_of {A : Type} (m : M A) : trace := fst (fst (run m)).
Definition result_of {A : Type} (m : M A) : result A := snd (run m).

(** ** OpenCV's min-max normalisation *)

Module cv2.

(** [cv::minMaxIdx]: the least and the greatest sample. *)
Definition minMax (src : image) : Z * Z :=
  match src with
  | [] => (0, 0)
  | v :: rest => (fold_right Z.min v rest, fold_right Z.max v rest)
  end.

(** [cvRound]: to the nearest integer, a tie to the even one. *)
Definition cvRound (q : Q) : Z :=
  let f := Qfloor q in
  match Qcompare (q - inject_Z f) (1 # 2) with
  | Lt => f
  | Gt => f + 1
  | Eq => if Z.even f then f else f + 1
  end.

(** [cv::saturate_cast<ushort>]. *)
Definition saturate_cast_ushort (z : Z) : Z :=
  Z.max 0 (Z.min 65535 z).

(** [src.convertTo(dst, rtype, scale, shift)] with the type of the source:
    every sample becomes [saturate_cast(cvRound(v * scale + shift))]. *)
Definition convertTo (src : image) (scale shift : Q) : image :=
  map (fun v => saturate_cast_ushort (cvRound (inject_Z v * scale + shift)%Q)) src.

(** Modelled from the spec: [cv2.normalize(src, None, alpha, beta,
    cv2.NORM_MINMAX)] is OpenCV's code and is not in this repository.  The
    spec's streaming policy is to rescale the observed sample range linearly
    to the target range, per frame.  The model is OpenCV's documented
    algorithm for that policy in exact rational arithmetic, where OpenCV
    computes in floating point: [scale] is the ratio of the target range to
    the observed range, or 0 when the observed range is empty, [shift] puts
    the least sample on the lower target bound, and the samples are
    converted with these two. *)
Definition normalize (src : image) (alpha beta : Z) : image :=
  let '(smin, smax) := minMax src in
  let dmin := Z.min alpha beta in
  let dmax := Z.max alpha beta in
  let scale : Q :=
    (inject_Z (dmax - dmin) *
     (if 0 <? smax - smin then 1 / inject_Z (smax - smin) else 0))%Q in
  let shift : Q := (inject_Z dmin - inject_Z smin * scale)%Q in
  convertTo src scale shift.

End cv2.

(** The scale and the shift of [cv2.normalize(image, None, 0, 255,
    cv2.NORM_MINMAX)] for an image with least sample [lo] and greatest
    sample [hi], and what a sample becomes. *)
Definition minmax_scale (lo hi : Z) : Q :=
  (inject_Z (Z.max 0 255 - Z.min 0 255) *
   (if 0 <? hi - lo then 1 / inject_Z (hi - lo) else 0))%Q.

Definition minmax_shift (lo hi : Z) : Q :=
  (inject_Z (Z.min 0 255) - inject_Z lo * minmax_scale lo hi)%Q.

Definition normalize_sample (lo hi v : Z) : Z :=
  cv2.saturate_cast_ushort
    (cv2.cvRound (inject_Z v * minmax_scale lo hi + minmax_shift lo hi)%Q).

(** ** opencv_mp4_writer_example.py *)

Definition NUMBER_OF_IMAGES : nat := 200.

(** [image_data >> (bit_depth - 8)] on one sample. *)
Definition scale_to_8bpp (bit_depth : Z) (v : Z) : Z :=
  Z.shiftr v (bit_depth - 8).

Definition TIMEOUT_MESSAGE : string :=
  "Timeout was reached while polling for a frame, program will now exit".

Section Scripts.

Variable w : World.

Definition get_pending_frame_or_null : M (option image) :=
  fun i =>
    match polls w i with
    | PFrame image_buffer => ([EPoll], S i, Ok (Some image_buffer))
    | PNull => ([EPoll], S i, Ok None)
    | PInterrupt => ([EPoll], S i, Raise KeyboardInterrupt)
    end.

Section ExportScript.

(** The target count; the script fixes it to [NUMBER_OF_IMAGES]. *)
Variable N : nat.

Definition is_color_camera : bool :=
  SENSOR_TYPE_eqb (camera_sensor_type w) BAYER.

(** The body of the [while] loop for a frame that was received. *)
Definition convert (mono_to_color_processor : option handle) (image_data : image)
  : M image :=
  if is_color_camera then
    with_handle mono_to_color_processor
      (ret (transform_to_24 w image_data (image_width_pixels w) (image_height_pixels w)))
  else
    ret (map (scale_to_8bpp (bit_depth w)) image_data).

(** [while frames_counted < NUMBER_OF_IMAGES: ..]; [fuel] bounds the number
    of iterations and the script runs it with [N - frames_counted]. *)
Fixpoint acquisition_loop (mono_to_color_processor : option handle)
  (fuel : nat) (frames_counted : nat) : M unit :=
  if (frames_counted <? N)%nat then
    match fuel with
    | O => running
    | S fuel' =>
        frame <- get_pending_frame_or_null ;;
        match frame with
        | None => raise (TimeoutError TIMEOUT_MESSAGE)
        | Some image_data =>
            let frames_counted := S frames_counted in
            image_data <- convert mono_to_color_processor image_data ;;
            emit (EWrite image_data) ;;
            acquisition_loop mono_to_color_processor fuel' frames_counted
        end
    end
  else ret tt.

(** [try: h.dispose()  except Exception as exception: print(prefix + str(exception))]. *)
Definition dispose_logged (h : option handle) (call : event)
  (error : option string) (prefix : string) : M unit :=
  try_except
    (with_handle h
       (emit call ;;
        match error with
        | Some msg => raise (SdkError msg)
        | None => ret tt
        end))
    (fun e =>
       if is_Exception e then Some (emit (EPrint (prefix ++ str e)%string))
       else None).

(** The [finally] suite. *)
Definition teardown (mono_to_color_sdk mono_to_color_processor : option handle)
  : M unit :=
  emit EDisarm ;;
  emit ERelease ;;
  if is_color_camera then
    dispose_logged mono_to_color_processor EDisposeProcessor
      (processor_dispose_error w) "Unable to dispose mono to color processor: " ;;
    dispose_logged mono_to_color_sdk EDisposeColorSdk
      (color_sdk_dispose_error w) "Unable to dispose mono to color sdk: "
  else ret tt.

(** Lines 56-68: the two variables start as [None] and are assigned for a
    color camera. *)
Definition setup_color : M (option handle * option handle) :=
  if is_color_camera then
    emit ECreateColorSdk ;;
    emit ECreateProcessor ;;
    emit (ESetOutputFormat BGR_PIXEL) ;;
    ret (Some MonoToColorProcessorSDK_handle, Some MonoToColorProcessor_handle)
  else ret (None, None).

Definition export_session : M unit :=
  (if output_exists w then emit ERemoveFile else ret tt) ;;
  with_ ESdkOpen ESdkClose
    (emit EDiscover ;;
     (if (List.length (cameras w) =? 0)%nat
      then emit (EPrint "Error: no cameras detected!") else ret tt) ;;
     serial <- index0 (cameras w) ;;
     with_ (EOpenCamera serial) ECloseCamera
       (emit (ESetProp "frames_per_trigger_zero_for_unlimited" 0) ;;
        emit (ESetProp "image_poll_timeout_ms" 2000) ;;
        emit (EArm 2) ;;
        handles <- setup_color ;;
        let '(mono_to_color_sdk, mono_to_color_processor) := handles in
        emit (EOpenSink (image_width_pixels w) (image_height_pixels w) is_color_camera) ;;
        emit ETrigger ;;
        let frames_counted := O in
        try_finally
          (acquisition_loop mono_to_color_processor (N - frames_counted) frames_counted)
          (teardown mono_to_color_sdk mono_to_color_processor))).

End ExportScript.

Definition opencv_mp4_writer_example : M unit := export_session NUMBER_OF_IMAGES.

(** ** video.py *)

Definition normalize_image (img : image) : image :=
  cv2.normalize img 0 255.

Definition get_camera_frame : M (option image) :=
  frame <- get_pending_frame_or_null ;;
  match frame with
  | Some image_buffer => ret (Some (normalize_image image_buffer))
  | None => ret None
  end.

(** [while first_frame is None: first_frame = get_camera_frame(camera)];
    [fuel] bounds the number of iterations. *)
Fixpoint first_frame_wait (fuel : nat) (first_frame : option image) : M image :=
  match first_frame with
  | Some first_frame => ret first_frame
  | None =>
      match fuel with
      | O => running
      | S fuel' =>
          first_frame <- get_camera_frame ;;
          first_frame_wait fuel' first_frame
      end
  end.

(** [while True: ..]; [fuel] bounds the number of iterations. *)
Fixpoint display_loop (fuel : nat) : M unit :=
  match fuel with
  | O => running
  | S fuel' =>
      frame <- get_camera_frame ;;
      match frame with
      | Some frame =>
          emit (ESetData frame) ;;
          emit EDraw ;;
          emit EFlushEvents
      | None => emit (EPrint "No frame received.")
      end ;;
      display_loop fuel'
  end.

Definition setup_plot (first_frame : image) : M unit :=
  emit (EPlot "ion") ;;
  emit (EPlot "subplots") ;;
  emit (EImshow first_frame) ;;
  emit (EPlot "colorbar") ;;
  emit (EPlot "set_label") ;;
  emit (EPlot "set_title") ;;
  emit (EPlot "axis").

Definition main (fuel : nat) : M unit :=
  with_ ESdkOpen ESdkClose
    (emit EDiscover ;;
     match cameras w with
     | [] => emit (EPrint "No cameras detected.")
     | _ :: _ =>
         serial <- index0 (cameras w) ;;
         with_ (EOpenCamera serial) ECloseCamera
           (emit (ESetProp "exposure_time_us" 1000) ;;
            emit (ESetProp "frames_per_trigger_zero_for_unlimited" 0) ;;
            emit (ESetProp "image_poll_timeout_ms" 1000) ;;
            emit (ESetProp "frame_rate_control_value" 10) ;;
            emit (ESetProp "is_frame_rate_control_enabled" 1) ;;
            emit (EArm 2) ;;
            emit ETrigger ;;
            emit (EPrint "Starting live view with colorbar...") ;;
            first_frame <- first_frame_wait fuel None ;;
            setup_plot first_frame ;;
            try_finally
              (try_except (display_loop fuel)
                 (fun e =>
                    match e with
                    | KeyboardInterrupt => Some (emit (EPrint "Interrupted by user."))
                    | _ => None
                    end))
              (emit EDisarm ;;
               emit (EPrint "Camera disarmed. Exiting...") ;;
               emit (EPlot "ioff") ;;
               emit (EPlot "close")))
     end).

End Scripts.

(** ** Observations on traces *)

Definition prepend {A : Type} (t : trace) (r : trace * nat * result A)
  : trace * nat * result A :=
  let '(t', i, x) := r in (t ++ t', i, x).

(** The images handed to [mp4_video.write], in order. *)
Definition written (t : trace) : list image :=
  flat_map (fun e => match e with EWrite im => [im] | _ => [] end) t.

(** The images handed to the display ([imshow] and [set_data]), in order. *)
Definition displayed (t : trace) : list image :=
  flat_map (fun e => match e with EImshow im | ESetData im => [im] | _ => [] end) t.

Definition is_poll (e : event) : bool :=
  match e with EPoll => true | _ => false end.

Definition is_print (e : event) : bool :=
  match e with EPrint _ => true | _ => false end.

Definition is_arm (e : event) : bool :=
  match e with EArm _ => true | _ => false end.

Definition is_disarm (e : event) : bool :=
  match e with EDisarm => true | _ => false end.

(** Calls on the video sink or on the display. *)
Definition is_sink (e : event) : bool :=
  match e with
  | EOpenSink _ _ _ | EWrite _ | ERelease => true
  | EPlot _ | EImshow _ | ESetData _ | EDraw | EFlushEvents => true
  | _ => false
  end.

(** The calls of the export script's [finally] suite. *)
Definition is_teardown (e : event) : bool :=
  match e with
  | EDisarm | ERelease | EDisposeProcessor | EDisposeColorSdk => true
  | _ => false
  end.

(** Creation and disposal of the color-processing handles. *)
Definition is_color_resource (e : event) : bool :=
  match e with
  | ECreateColorSdk | ECreateProcessor
  | EDisposeProcessor | EDisposeColorSdk => true
  | _ => false
  end.

Definition is_create_processor (e : event) : bool :=
  match e with ECreateProcessor => true | _ => false end.

Definition is_dispose_processor (e : event) : bool :=
  match e with EDisposeProcessor => true | _ => false end.

Definition is_dispose_color_sdk (e : event) : bool :=
  match e with EDisposeColorSdk => true | _ => false end.

Definition is_release (e : event) : bool :=
  match e with ERelease => true | _ => false end.

Definition is_trigger (e : event) : bool :=
  match e with ETrigger => true | _ => false end.

(** Position of the first event of a trace that satisfies [p]. *)
Fixpoint position (p : event -> bool) (t : trace) : option nat :=
  match t with
  | [] => None
  | e :: t' => if p e then Some O else option_map S (position p t')
  end.

(** Both a [p] event and a [q] event occur, and the first [p] event comes
    before the first [q] event. *)
Definition precedes (p q : event -> bool) (t : trace) : bool :=
  match position p t, position q t with
  | Some a, Some b => (a <? b)%nat
  | _, _ => false
  end.

(** The buffer of the [j]-th poll when it returned a frame. *)
Definition buffer_at (w : World) (j : nat) : image :=
  match polls w j with
  | PFrame image_buffer => image_buffer
  | _ => []
  end.

Definition is_frame (o : poll_outcome) : bool :=
  match o with PFrame _ => true | _ => false end.

(** What the export script hands to the sink for a raw buffer. *)
Definition converted (w : World) (image_data : image) : image :=
  if is_color_camera w
  then transform_to_24 w image_data (image_width_pixels w) (image_height_pixels w)
  else map (scale_to_8bpp (bit_depth w)) image_data.

(** The events of [k] successful iterations of the export loop from poll [i]. *)
Definition iterations (w : World) (i k : nat) : trace :=
  flat_map (fun j => [EPoll; EWrite (converted w (buffer_at w j))]) (seq i k).

(** How the export loop can stop. *)
Inductive loop_exit : Type :=
| Completed
| TimedOut
| Interrupted.

Definition exit_result (x : loop_exit) : result unit :=
  match x with
  | Completed => Ok tt
  | TimedOut => Raise (TimeoutError TIMEOUT_MESSAGE)
  | Interrupted => Raise KeyboardInterrupt
  end.

(** The events of the iteration that stops the loop. *)
Definition exit_tail (x : loop_exit) : trace :=
  match x with
  | Completed => []
  | TimedOut | Interrupted => [EPoll]
  end.

(** From poll [i] on and with [todo] frames to go, the polls give [k] frames
    in a row and then the loop stops by [x]. *)
Definition loop_exits (w : World) (todo i k : nat) (x : loop_exit) : Prop :=
  (forall j, (j < k)%nat -> is_frame (polls w (i + j)) = true) /\
  match x with
  | Completed => k = todo
  | TimedOut => (k < todo)%nat /\ polls w (i + k) = PNull
  | Interrupted => (k < todo)%nat /\ polls w (i + k) = PInterrupt
  end.

(** ** The traces of whole runs *)

(** What a logged disposal prints: nothing, or the message of the error. *)
Definition log_error (error : option string) (prefix : string) : trace :=
  match error with
  | Some msg => [EPrint (prefix ++ msg)%string]
  | None => []
  end.

(** The events before the loop, for the camera [serial]. *)
Definition setup_events (w : World) (serial : string) : trace :=
  (if output_exists w then [ERemoveFile] else []) ++
  [ESdkOpen; EDiscover; EOpenCamera serial;
   ESetProp "frames_per_trigger_zero_for_unlimited" 0;
   ESetProp "image_poll_timeout_ms" 2000;
   EArm 2] ++
  (if is_color_camera w
   then [ECreateColorSdk; ECreateProcessor; ESetOutputFormat BGR_PIXEL]
   else []) ++
  [EOpenSink (image_width_pixels w) (image_height_pixels w) (is_color_camera w);
   ETrigger].

(** The events of the [finally] suite. *)
Definition teardown_events (w : World) : trace :=
  [EDisarm; ERelease] ++
  (if is_color_camera w
   then [EDisposeProcessor] ++
        log_error (processor_dispose_error w)
          "Unable to dispose mono to color processor: " ++
        [EDisposeColorSdk] ++
        log_error (color_sdk_dispose_error w)
          "Unable to dispose mono to color sdk: "
   else []).

(** The claim "both color handles are disposed before the camera is
    disarmed", on a trace. *)
Definition disposed_before_disarm (t : trace) : bool :=
  precedes is_dispose_processor is_disarm t &&
  precedes is_dispose_color_sdk is_disarm t.

(** What the [finally] suite does instead. *)
Definition disposed_after_disarm (t : trace) : bool :=
  precedes is_disarm is_dispose_processor t &&
  precedes is_disarm is_dispose_color_sdk t.

(** *** The live view *)

(** The events of one iteration of the display loop at poll [j]. *)
Definition display_iteration (w : World) (j : nat) : trace :=
  match polls w j with
  | PFrame image_buffer =>
      [EPoll; ESetData (normalize_image image_buffer); EDraw; EFlushEvents]
  | PNull => [EPoll; EPrint "No frame received."]
  | PInterrupt => [EPoll]
  end.

(** The events of the [k] iterations of the display loop from poll [i]. *)
Definition display_events (w : World) (i k : nat) : trace :=
  flat_map (display_iteration w) (seq i k).

(** The normalised frames of the polls [i .. i + k - 1] that returned one. *)
Definition frames_between (w : World) (i k : nat) : list image :=
  flat_map
    (fun j => match polls w j with
              | PFrame image_buffer => [normalize_image image_buffer]
              | _ => []
              end)
    (seq i k).

Definition is_null (o : poll_outcome) : bool :=
  match o with PNull => true | _ => false end.

Definition is_no_frame_log (e : event) : bool :=
  match e with
  | EPrint s => String.eqb s "No frame received."
  | _ => false
  end.

(** The events of [main] before the wait for the first frame. *)
Definition video_setup_events (serial : string) : trace :=
  [ESdkOpen; EDiscover; EOpenCamera serial;
   ESetProp "exposure_time_us" 1000;
   ESetProp "frames_per_trigger_zero_for_unlimited" 0;
   ESetProp "image_poll_timeout_ms" 1000;
   ESetProp "frame_rate_control_value" 10;
   ESetProp "is_frame_rate_control_enabled" 1;
   EArm 2; ETrigger; EPrint "Starting live view with colorbar..."].

(** The initialisation of the display. *)
Definition plot_events (first_frame : image) : trace :=
  [EPlot "ion"; EPlot "subplots"; EImshow first_frame; EPlot "colorbar";
   EPlot "set_label"; EPlot "set_title"; EPlot "axis"].

(** The [finally] suite of [main]. *)
Definition video_teardown_events : trace :=
  [EDisarm; EPrint "Camera disarmed. Exiting..."; EPlot "ioff"; EPlot "close"].

(** The first [k] polls return null and the next one returns [buf]. *)
Definition first_frame_at (w : World) (k : nat) (buf : image) : Prop :=
  (forall j, (j < k)%nat -> polls w j = PNull) /\ polls w k = PFrame buf.

Definition in_display_range (img : image) : Prop :=
  Forall (fun v => 0 <= v <= 255) img.

(** *** Concrete worlds *)

(** A 10-bit camera of 2 x 2 pixels: two frames, a timeout, one more frame,
    then the interrupt. *)
Definition sample_polls (i : nat) : poll_outcome :=
  match i with
  | 0%nat => PFrame [0; 1023; 512; 4]
  | 1%nat => PFrame [7; 7; 7; 7]
  | 2%nat => PNull
  | 3%nat => PFrame [1; 2; 3; 4]
  | _ => PInterrupt
  end.

(** A stand-in for the color transform: three channels per sample. *)
Definition sample_transform (image_data : image) (width height : Z) : image :=
  flat_map (fun v => [v; v; v]) image_data.

Definition world_mono : World :=
  mkWorld true ["camera0"%string] MONOCHROME 10 2 2 sample_polls
    sample_transform None None.

Definition world_color : World :=
  mkWorld true ["camera0"%string] BAYER 10 2 2 sample_polls
    sample_transform None (Some "handle is closed"%string).

Definition world_no_camera : World :=
  mkWorld false [] MONOCHROME 10 2 2 sample_polls sample_transform None None.

(** The interrupt arrives during the very first poll. *)
Definition world_interrupted_at_start : World :=
  mkWorld false ["camera0"%string] MONOCHROME 10 2 2 (fun _ => PInterrupt)
    sample_transform None None.

(** Two null polls, then the first frame, then a null poll and a frame. *)
Definition late_polls (i : nat) : poll_outcome :=
  match i with
  | 0%nat | 1%nat => PNull
  | 2%nat => PFrame [100; 300; 200; 100]
  | 3%nat => PNull
  | 4%nat => PFrame [5; 5; 5; 5]
  | _ => PNull
  end.

Definition world_late : World :=
  mkWorld false ["camera0"%string] MONOCHROME 10 2 2 late_polls
    sample_transform None None.

(** *** Further observations *)

Definition is_remove (e : event) : bool :=
  match e with ERemoveFile => true | _ => false end.

Definition is_open_sink (e : event) : bool :=
  match e with EOpenSink _ _ _ => true | _ => false end.

(** Opening and closing of the camera SDK and of the camera: the entries and
    exits of the two [with] blocks. *)
Definition is_lifecycle (e : event) : bool :=
  match e with
  | ESdkOpen | ESdkClose | EOpenCamera _ | ECloseCamera => true
  | _ => false
  end.

Definition is_set_data (e : event) : bool :=
  match e with ESetData _ => true | _ => false end.

Definition is_draw (e : event) : bool :=
  match e with EDraw => true | _ => false end.

Definition is_flush_events (e : event) : bool :=
  match e with EFlushEvents => true | _ => false end.

(** The world [w] with other poll outcomes. *)
Definition with_polls (w : World) (p : nat -> poll_outcome) : World :=
  mkWorld (output_exists w) (cameras w) (camera_sensor_type w) (bit_depth w)
    (image_width_pixels w) (image_height_pixels w) p (transform_to_24 w)
    (processor_dispose_error w) (color_sdk_dispose_error w).

(** A frame, then the interrupt. *)
Definition interrupted_polls (i : nat) : poll_outcome :=
  match i with
  | 0%nat => PFrame [16; 32; 48; 64]
  | _ => PInterrupt
  end.

(** A color camera whose two disposals both raise. *)
Definition world_dispose_errors : World :=
  mkWorld false ["camera0"%string] BAYER 12 2 2 interrupted_polls
    sample_transform (Some "processor is busy"%string)
    (Some "handle is closed"%string).

(** No camera, and the output of a previous run is still there. *)
Definition world_no_camera_stale : World :=
  mkWorld true [] MONOCHROME 10 2 2 sample_polls sample_transform None None.

(** Poll outcomes that agree with [sample_polls] on the first two polls. *)
Definition other_polls (i : nat) : poll_outcome :=
  match i with
  | 0%nat => PFrame [0; 1023; 512; 4]
  | 1%nat => PFrame [7; 7; 7; 7]
  | _ => PFrame [9; 9; 9; 9]
  end.

(** ** The export loop *)

Section ExportLoop.

Variable w : World.
Variable N : nat.
Variable proc : option handle.
Hypothesis proc_ok : is_color_camera w = true -> proc <> None.

Lemma convert_run (image_data : image) (i : nat) :
  convert w proc image_data i = ([], i, Ok (converted w image_data)).
Proof.
  unfold convert, converted.
  destruct (is_color_camera w) eqn:E; [|reflexivity].
  destruct proc as [h|]; [reflexivity|].
  exfalso. now apply proc_ok.
Qed.

Lemma acquisition_loop_done (fuel fc i : nat) :
  (N <= fc)%nat -> acquisition_loop w N proc fuel fc i = ([], i, Ok tt).
Proof.
  intros H. destruct fuel; simpl;
    destruct (Nat.ltb_spec fc N); try lia; reflexivity.
Qed.

Lemma acquisition_loop_frame (fuel fc i : nat) (buf : image) :
  (fc < N)%nat -> polls w i = PFrame buf ->
  acquisition_loop w N proc (S fuel) fc i =
  prepend [EPoll; EWrite (converted w buf)]
    (acquisition_loop w N proc fuel (S fc) (S i)).
Proof.
  intros H Hp. simpl.
  destruct (Nat.ltb_spec fc N); [|lia].
  unfold bind at 1. unfold get_pending_frame_or_null. rewrite Hp.
  unfold bind at 1. rewrite convert_run.
  unfold bind at 1. unfold emit at 1.
  destruct (acquisition_loop w N proc fuel (S fc) (S i)) as [[t j] r].
  reflexivity.
Qed.

Lemma acquisition_loop_null (fuel fc i : nat) :
  (fc < N)%nat -> polls w i = PNull ->
  acquisition_loop w N proc (S fuel) fc i =
  ([EPoll], S i, Raise (TimeoutError TIMEOUT_MESSAGE)).
Proof.
  intros H Hp. simpl.
  destruct (Nat.ltb_spec fc N); [|lia].
  unfold bind, get_pending_frame_or_null. rewrite Hp. reflexivity.
Qed.

Lemma acquisition_loop_interrupt (fuel fc i : nat) :
  (fc < N)%nat -> polls w i = PInterrupt ->
  acquisition_loop w N proc (S fuel) fc i =
  ([EPoll], S i, Raise KeyboardInterrupt).
Proof.
  intros H Hp. simpl.
  destruct (Nat.ltb_spec fc N); [|lia].
  unfold bind, get_pending_frame_or_null. rewrite Hp. reflexivity.
Qed.

Lemma iterations_S (i k : nat) :
  iterations w i (S k) =
  [EPoll; EWrite (converted w (buffer_at w i))] ++ iterations w (S i) k.
Proof. reflexivity. Qed.

Lemma acquisition_loop_run (k : nat) :
  forall todo fc i x,
    (fc + todo)%nat = N -> loop_exits w todo i k x ->
    acquisition_loop w N proc todo fc i =
    (iterations w i k ++ exit_tail x, (i + k + List.length (exit_tail x))%nat,
     exit_result x).
Proof.
  induction k as [|k IH]; intros todo fc i x HN [Hfr Hx].
  - rewrite Nat.add_0_r in *. cbn [iterations seq flat_map app].
    destruct x; cbn [exit_tail exit_result List.length].
    + subst todo. rewrite Nat.add_0_r.
      apply acquisition_loop_done. lia.
    + destruct Hx as [Hlt Hp]. destruct todo as [|todo]; [lia|].
      rewrite acquisition_loop_null by (assumption || lia).
      f_equal. f_equal. lia.
    + destruct Hx as [Hlt Hp]. destruct todo as [|todo]; [lia|].
      rewrite acquisition_loop_interrupt by (assumption || lia).
      f_equal. f_equal. lia.
  - assert (Hi : is_frame (polls w i) = true).
    { specialize (Hfr O). rewrite Nat.add_0_r in Hfr. apply Hfr. lia. }
    destruct (polls w i) as [buf| |] eqn:Hp; try discriminate.
    assert (Hlt : (S k <= todo)%nat) by (destruct x; lia).
    destruct todo as [|todo]; [lia|].
    rewrite (acquisition_loop_frame todo fc i buf) by (assumption || lia).
    rewrite (IH todo (S fc) (S i) x).
    + rewrite iterations_S. unfold buffer_at at 1. rewrite Hp.
      cbn [prepend]. rewrite <- app_assoc. f_equal. f_equal. lia.
    + lia.
    + split.
      * intros j Hj. replace (S i + j)%nat with (i + S j)%nat by lia.
        apply Hfr. lia.
      * replace (S i + k)%nat with (i + S k)%nat by lia.
        destruct x; [lia | split; [lia | tauto] | split; [lia | tauto]].
Qed.

End ExportLoop.

(** Every sequence of poll outcomes stops the export loop in one of the
    three ways. *)
Lemma loop_exits_total (w : World) (todo : nat) :
  forall i, exists k x, loop_exits w todo i k x.
Proof.
  induction todo as [|todo IH]; intros i.
  - exists O, Completed. split; [intros j Hj; lia | reflexivity].
  - destruct (polls w i) as [buf| |] eqn:Hp.
    + destruct (IH (S i)) as (k & x & Hfr & Hx).
      exists (S k), x. split.
      * intros [|j] Hj.
        -- rewrite Nat.add_0_r, Hp. reflexivity.
        -- replace (i + S j)%nat with (S i + j)%nat by lia. apply Hfr. lia.
      * replace (i + S k)%nat with (S i + k)%nat by lia.
        destruct x; [lia | split; [lia | tauto] | split; [lia | tauto]].
    + exists O, TimedOut. split; [intros j Hj; lia|].
      rewrite Nat.add_0_r. split; [lia | assumption].
    + exists O, Interrupted. split; [intros j Hj; lia|].
      rewrite Nat.add_0_r. split; [lia | assumption].
Qed.

(** The polls determine how the loop stops. *)
Lemma loop_exits_unique (w : World) (todo i k k' : nat) (x x' : loop_exit) :
  loop_exits w todo i k x -> loop_exits w todo i k' x' -> k = k' /\ x = x'.
Proof.
  intros [Hfr Hx] [Hfr' Hx'].
  assert (Hk : k = k').
  { destruct (Nat.lt_trichotomy k k') as [H|[H|H]]; [|assumption|].
    - specialize (Hfr' k H).
      destruct x; [destruct x'; lia | |];
        destruct Hx as [_ Hp]; rewrite Hp in Hfr'; discriminate.
    - specialize (Hfr k' H).
      destruct x'; [destruct x; lia | |];
        destruct Hx' as [_ Hp]; rewrite Hp in Hfr; discriminate. }
  subst k'. split; [reflexivity|].
  destruct x, x'; try reflexivity; try lia;
    destruct Hx as [? Hp]; destruct Hx' as [? Hp']; congruence.
Qed.

(** ** The export session as a whole *)

Lemma teardown_run (w : World) (sdk proc : option handle) (i : nat) :
  (is_color_camera w = true -> sdk <> None /\ proc <> None) ->
  teardown w sdk proc i = (teardown_events w, i, Ok tt).
Proof.
  intros H. unfold teardown, teardown_events.
  destruct (is_color_camera w); [|reflexivity].
  destruct (H eq_refl) as [Hs Hp].
  destruct sdk as [s|]; [|congruence]. destruct proc as [p|]; [|congruence].
  destruct (processor_dispose_error w), (color_sdk_dispose_error w);
    reflexivity.
Qed.

Lemma export_session_run (w : World) (N : nat) (serial : string)
  (rest : list string) (k : nat) (x : loop_exit) :
  cameras w = serial :: rest ->
  loop_exits w N O k x ->
  export_session w N O =
  (setup_events w serial ++ iterations w O k ++ exit_tail x ++
   teardown_events w ++ [ECloseCamera; ESdkClose],
   (k + List.length (exit_tail x))%nat, exit_result x).
Proof.
  intros Hc Hx.
  assert (Hloop : forall proc, (is_color_camera w = true -> proc <> None) ->
            acquisition_loop w N proc (N - 0) 0%nat 0%nat =
            (iterations w 0%nat k ++ exit_tail x,
             (k + List.length (exit_tail x))%nat, exit_result x)).
  { intros proc Hproc. rewrite Nat.sub_0_r.
    apply (acquisition_loop_run w N proc Hproc k N 0%nat 0%nat x);
      [reflexivity | assumption]. }
  unfold export_session, setup_events, setup_color. rewrite Hc.
  destruct (output_exists w); destruct (is_color_camera w) eqn:Hcol;
    cbv beta iota zeta delta
      [with_ try_finally bind emit ret index0 Nat.eqb List.length];
    rewrite Hloop by congruence;
    destruct x; cbn [exit_result];
    rewrite teardown_run by (intros Hf; split; congruence);
    cbn [exit_tail app]; rewrite ?app_nil_r, <- ?app_assoc; reflexivity.
Qed.

Lemma export_session_no_camera (w : World) (N : nat) :
  cameras w = [] ->
  export_session w N O =
  ((if output_exists w then [ERemoveFile] else []) ++
   [ESdkOpen; EDiscover; EPrint "Error: no cameras detected!"; ESdkClose],
   O, Raise IndexError).
Proof.
  intros Hc. unfold export_session. rewrite Hc.
  destruct (output_exists w); reflexivity.
Qed.

(** Every run with a camera stops its loop in one of the three ways, and its
    trace is the set-up, the successful iterations, the stopping iteration,
    the [finally] suite and the exits of the two [with] blocks. *)
Lemma export_session_shape (w : World) (N : nat) :
  cameras w <> [] ->
  exists serial k x,
    loop_exits w N O k x /\
    (k <= N)%nat /\
    trace_of (export_session w N) =
      setup_events w serial ++ iterations w O k ++ exit_tail x ++
      teardown_events w ++ [ECloseCamera; ESdkClose] /\
    result_of (export_session w N) = exit_result x.
Proof.
  intros Hc. destruct (cameras w) as [|serial rest] eqn:E; [congruence|].
  destruct (loop_exits_total w N O) as (k & x & Hx).
  exists serial, k, x. unfold trace_of, result_of, run.
  rewrite (export_session_run w N serial rest k x E Hx).
  split; [assumption|]. split; [|split; reflexivity].
  destruct Hx as [_ Hx]. destruct x; lia.
Qed.

Section TraceFacts.

Variable w : World.

Lemma written_app (t1 t2 : trace) : written (t1 ++ t2) = written t1 ++ written t2.
Proof. apply flat_map_app. Qed.

Lemma written_iterations (i k : nat) :
  written (iterations w i k) =
  map (fun j => converted w (buffer_at w j)) (seq i k).
Proof.
  unfold iterations. revert i.
  induction k as [|k IH]; intros i; [reflexivity|].
  cbn [seq flat_map map]. rewrite written_app, IH. reflexivity.
Qed.

Lemma written_setup_events (serial : string) : written (setup_events w serial) = [].
Proof.
  unfold setup_events.
  destruct (output_exists w), (is_color_camera w); reflexivity.
Qed.

Lemma written_teardown_events : written (teardown_events w) = [].
Proof.
  unfold teardown_events, log_error.
  destruct (is_color_camera w), (processor_dispose_error w),
    (color_sdk_dispose_error w); reflexivity.
Qed.

Lemma written_exit_tail (x : loop_exit) : written (exit_tail x) = [].
Proof. destruct x; reflexivity. Qed.

(** A filter that keeps neither polls nor writes keeps nothing of the
    successful iterations. *)
Lemma filter_iterations (p : event -> bool) (i k : nat) :
  p EPoll = false -> (forall im, p (EWrite im) = false) ->
  filter p (iterations w i k) = [].
Proof.
  intros Hp Hw. unfold iterations. revert i.
  induction k as [|k IH]; intros i; [reflexivity|].
  cbn [seq flat_map app filter]. rewrite Hp, Hw. apply IH.
Qed.

Lemma filter_exit_tail (p : event -> bool) (x : loop_exit) :
  p EPoll = false -> filter p (exit_tail x) = [].
Proof. intros Hp. destruct x; cbn; rewrite ?Hp; reflexivity. Qed.

Lemma filter_poll_iterations (i k : nat) :
  List.length (filter is_poll (iterations w i k)) = k.
Proof.
  unfold iterations. revert i.
  induction k as [|k IH]; intros i; [reflexivity|].
  cbn [seq flat_map app filter is_poll List.length]. now rewrite IH.
Qed.

End TraceFacts.

(** The written images of a run with a camera. *)
Lemma written_export_session (w : World) (N k : nat) (x : loop_exit) :
  cameras w <> [] -> loop_exits w N O k x ->
  written (trace_of (export_session w N)) =
  map (fun j => converted w (buffer_at w j)) (seq O k).
Proof.
  intros Hc Hx. destruct (cameras w) as [|serial rest] eqn:E; [congruence|].
  unfold trace_of, run. rewrite (export_session_run w N serial rest k x E Hx).
  cbn [fst]. rewrite !written_app, written_setup_events, written_iterations,
    written_exit_tail, written_teardown_events. cbn [written flat_map app].
  now rewrite app_nil_r.
Qed.

(** ** The fixed-shift conversion *)

Lemma scale_to_8bpp_div (B v : Z) :
  8 <= B -> scale_to_8bpp B v = v / 2 ^ (B - 8).
Proof. intros HB. unfold scale_to_8bpp. apply Z.shiftr_div_pow2. lia. Qed.

Lemma pow2_split (B : Z) : 8 <= B -> 2 ^ B = 256 * 2 ^ (B - 8).
Proof.
  intros HB. replace B with (8 + (B - 8)) at 1 by lia.
  rewrite Z.pow_add_r by lia. reflexivity.
Qed.

Lemma scale_to_8bpp_range (B v : Z) :
  8 <= B -> 0 <= v < 2 ^ B -> 0 <= scale_to_8bpp B v <= 255.
Proof.
  intros HB Hv. rewrite scale_to_8bpp_div by assumption.
  assert (Hp : 0 < 2 ^ (B - 8)) by (apply Z.pow_pos_nonneg; lia).
  split.
  - apply Z.div_pos; lia.
  - enough (v / 2 ^ (B - 8) < 256) by lia.
    apply Z.div_lt_upper_bound; [assumption|].
    rewrite Z.mul_comm, <- pow2_split by assumption. lia.
Qed.

(** The result keeps the high-order bits and drops the rest: the sample lies
    in the block of [2 ^ (B - 8)] values that starts at the result. *)
Lemma scale_to_8bpp_truncates (B v : Z) :
  8 <= B ->
  scale_to_8bpp B v * 2 ^ (B - 8) <= v < (scale_to_8bpp B v + 1) * 2 ^ (B - 8).
Proof.
  intros HB. rewrite scale_to_8bpp_div by assumption.
  assert (Hp : 0 < 2 ^ (B - 8)) by (apply Z.pow_pos_nonneg; lia).
  pose proof (Z.div_mod v (2 ^ (B - 8)) ltac:(lia)) as Hdm.
  pose proof (Z.mod_pos_bound v (2 ^ (B - 8)) Hp) as Hm.
  nia.
Qed.

Lemma scale_to_8bpp_max (B : Z) :
  8 <= B -> scale_to_8bpp B (2 ^ B - 1) = 255.
Proof.
  intros HB. rewrite scale_to_8bpp_div by assumption.
  assert (Hp : 0 < 2 ^ (B - 8)) by (apply Z.pow_pos_nonneg; lia).
  symmetry. apply (Z.div_unique_pos _ _ 255 (2 ^ (B - 8) - 1)); [lia|].
  rewrite (pow2_split B) by assumption. lia.
Qed.

Lemma scale_to_8bpp_zero (B : Z) : scale_to_8bpp B 0 = 0.
Proof. unfold scale_to_8bpp. apply Z.shiftr_0_l. Qed.

(** C1.  In an export session of a camera without a color filter and with
    bit depth [B >= 8], the images written to the sink are the polled
    buffers with every sample [V] replaced by [V >> (B - 8)], in poll order.
    For a sample [0 <= V < 2 ^ B] this value is the floor of
    [V / 2 ^ (B - 8)]: it is an 8-bit value, [V] lies in
    [[out * 2 ^ (B - 8), (out + 1) * 2 ^ (B - 8))], so the low-order bits are
    dropped without rounding, and the boundary samples [0] and [2 ^ B - 1]
    give [0] and [255]. *)
Theorem mono_export_writes_shifted_samples
  (w : World) (N k : nat) (x : loop_exit) :
  cameras w <> [] ->
  is_color_camera w = false ->
  8 <= bit_depth w ->
  loop_exits w N O k x ->
  written (trace_of (export_session w N)) =
    map (fun j => map (fun V => Z.shiftr V (bit_depth w - 8)) (buffer_at w j))
      (seq O k) /\
  (forall V, 0 <= V < 2 ^ bit_depth w ->
     Z.shiftr V (bit_depth w - 8) = V / 2 ^ (bit_depth w - 8) /\
     0 <= Z.shiftr V (bit_depth w - 8) <= 255 /\
     Z.shiftr V (bit_depth w - 8) * 2 ^ (bit_depth w - 8) <= V
       < (Z.shiftr V (bit_depth w - 8) + 1) * 2 ^ (bit_depth w - 8)) /\
  Z.shiftr 0 (bit_depth w - 8) = 0 /\
  Z.shiftr (2 ^ bit_depth w - 1) (bit_depth w - 8) = 255.
Proof.
  intros Hc Hmono HB Hx. split; [|split; [|split]].
  - rewrite (written_export_session w N k x Hc Hx).
    unfold converted. rewrite Hmono. reflexivity.
  - intros V HV. split; [|split].
    + apply (scale_to_8bpp_div (bit_depth w) V HB).
    + apply (scale_to_8bpp_range (bit_depth w) V HB HV).
    + apply (scale_to_8bpp_truncates (bit_depth w) V HB).
  - apply (scale_to_8bpp_zero (bit_depth w)).
  - apply (scale_to_8bpp_max (bit_depth w) HB).
Qed.

(** ** Counting polls and writes *)

Lemma filter_poll_setup_events (w : World) (serial : string) :
  filter is_poll (setup_events w serial) = [].
Proof.
  unfold setup_events.
  destruct (output_exists w), (is_color_camera w); reflexivity.
Qed.

Lemma filter_poll_teardown_events (w : World) :
  filter is_poll (teardown_events w) = [].
Proof.
  unfold teardown_events, log_error.
  destruct (is_color_camera w), (processor_dispose_error w),
    (color_sdk_dispose_error w); reflexivity.
Qed.

Lemma polls_export_session (w : World) (N k : nat) (x : loop_exit) :
  cameras w <> [] -> loop_exits w N O k x ->
  List.length (filter is_poll (trace_of (export_session w N))) =
  (k + List.length (exit_tail x))%nat.
Proof.
  intros Hc Hx. destruct (cameras w) as [|serial rest] eqn:E; [congruence|].
  unfold trace_of, run. rewrite (export_session_run w N serial rest k x E Hx).
  cbn [fst]. rewrite !filter_app, !length_app, filter_poll_setup_events,
    filter_poll_iterations, filter_poll_teardown_events.
  destruct x; cbn; lia.
Qed.

Lemma teardown_events_keep_output (w : World) :
  ~ In ERemoveFile (teardown_events w ++ [ECloseCamera; ESdkClose]).
Proof.
  unfold teardown_events, log_error.
  destruct (is_color_camera w), (processor_dispose_error w),
    (color_sdk_dispose_error w); cbn; intuition discriminate.
Qed.

(** C2.  In an export session with a camera and target count [N]: when the
    first [N] polls all return a frame, the script returns normally, the
    sink's write has been called exactly [N] times, once per frame and in
    poll order, and exactly [N] polls were made, so the loop stopped there.
    When the first [k < N] polls return a frame and the next one returns
    null, the script ends with the timeout error after [k + 1] polls, exactly
    [k < N] images were written, and after the failed poll only the
    [finally] suite and the exits of the [with] blocks run: they write
    nothing more and do not remove the output, which stays as written. *)
Theorem bounded_export_write_count (w : World) (N : nat) :
  cameras w <> [] ->
  ((forall j, (j < N)%nat -> is_frame (polls w j) = true) ->
   result_of (export_session w N) = Ok tt /\
   written (trace_of (export_session w N)) =
     map (fun j => converted w (buffer_at w j)) (seq O N) /\
   List.length (written (trace_of (export_session w N))) = N /\
   List.length (filter is_poll (trace_of (export_session w N))) = N) /\
  (forall k,
     (k < N)%nat ->
     (forall j, (j < k)%nat -> is_frame (polls w j) = true) ->
     polls w k = PNull ->
     result_of (export_session w N) = Raise (TimeoutError TIMEOUT_MESSAGE) /\
     written (trace_of (export_session w N)) =
       map (fun j => converted w (buffer_at w j)) (seq O k) /\
     List.length (written (trace_of (export_session w N))) = k /\
     (List.length (written (trace_of (export_session w N))) < N)%nat /\
     List.length (filter is_poll (trace_of (export_session w N))) = S k /\
     exists pre post,
       trace_of (export_session w N) = pre ++ EPoll :: post /\
       written pre = written (trace_of (export_session w N)) /\
       written post = [] /\
       ~ In ERemoveFile post /\
       In ERelease post).
Proof.
  intros Hc. split.
  - intros Hfr.
    assert (Hx : loop_exits w N O N Completed) by (split; [exact Hfr | reflexivity]).
    destruct (cameras w) as [|serial rest] eqn:E; [congruence|].
    assert (Hc' : cameras w <> []) by congruence.
    pose proof (written_export_session w N N Completed Hc' Hx) as Hw.
    pose proof (polls_export_session w N N Completed Hc' Hx) as Hp.
    split; [|split; [|split]].
    + unfold result_of, run.
      now rewrite (export_session_run w N serial rest N Completed E Hx).
    + exact Hw.
    + rewrite Hw, length_map, length_seq. reflexivity.
    + rewrite Hp. cbn. lia.
  - intros k Hk Hfr Hnull.
    assert (Hx : loop_exits w N O k TimedOut) by (split; [exact Hfr | split; assumption]).
    destruct (cameras w) as [|serial rest] eqn:E; [congruence|].
    assert (Hc' : cameras w <> []) by congruence.
    pose proof (written_export_session w N k TimedOut Hc' Hx) as Hw.
    pose proof (polls_export_session w N k TimedOut Hc' Hx) as Hp.
    assert (Hlen : List.length (written (trace_of (export_session w N))) = k).
    { rewrite Hw, length_map, length_seq. reflexivity. }
    split; [|split; [|split; [|split; [|split]]]].
    + unfold result_of, run.
      now rewrite (export_session_run w N serial rest k TimedOut E Hx).
    + exact Hw.
    + exact Hlen.
    + rewrite Hlen. exact Hk.
    + rewrite Hp. cbn. lia.
    + exists (setup_events w serial ++ iterations w O k),
        (teardown_events w ++ [ECloseCamera; ESdkClose]).
      split; [|split; [|split; [|split]]].
      * unfold trace_of, run.
        rewrite (export_session_run w N serial rest k TimedOut E Hx).
        cbn [fst exit_tail]. rewrite <- app_assoc. reflexivity.
      * rewrite Hw, written_app, written_setup_events, written_iterations.
        reflexivity.
      * rewrite written_app, written_teardown_events. reflexivity.
      * apply teardown_events_keep_output.
      * apply in_or_app. left. unfold teardown_events. cbn. tauto.
Qed.

(** ** The teardown sequence *)

Lemma position_app (p : event -> bool) (t1 t2 : trace) :
  position p (t1 ++ t2) =
  match position p t1 with
  | Some a => Some a
  | None => option_map (Nat.add (List.length t1)) (position p t2)
  end.
Proof.
  induction t1 as [|e t1 IH]; cbn [app position List.length].
  - destruct (position p t2); reflexivity.
  - destruct (p e); [reflexivity|]. rewrite IH.
    destruct (position p t1); [reflexivity|].
    destruct (position p t2); reflexivity.
Qed.

Lemma position_none (p q : event -> bool) (t : trace) :
  (forall e, p e = true -> q e = true) ->
  filter q t = [] -> position p t = None.
Proof.
  intros Hpq. induction t as [|e t IH]; [reflexivity|].
  cbn [filter position]. destruct (q e) eqn:Hq; [discriminate|].
  intros Hf. destruct (p e) eqn:Hp.
  - apply Hpq in Hp. congruence.
  - rewrite (IH Hf). reflexivity.
Qed.

Lemma filter_teardown_setup_events (w : World) (serial : string) :
  filter is_teardown (setup_events w serial) = [].
Proof.
  unfold setup_events.
  destruct (output_exists w), (is_color_camera w); reflexivity.
Qed.

Lemma filter_teardown_teardown_events (w : World) :
  filter is_teardown (teardown_events w) =
  [EDisarm; ERelease] ++
  (if is_color_camera w then [EDisposeProcessor; EDisposeColorSdk] else []).
Proof.
  unfold teardown_events, log_error.
  destruct (is_color_camera w), (processor_dispose_error w),
    (color_sdk_dispose_error w); reflexivity.
Qed.

(** Nothing of the [finally] suite happens before the loop has stopped. *)
Lemma filter_teardown_before (w : World) (serial : string) (k : nat) (x : loop_exit) :
  filter is_teardown (setup_events w serial ++ iterations w O k ++ exit_tail x) = [].
Proof.
  rewrite !filter_app, filter_teardown_setup_events,
    filter_iterations, filter_exit_tail; reflexivity.
Qed.

Lemma created_iff_color (w : World) (serial : string) (k : nat) (x : loop_exit) :
  In ECreateProcessor
    (setup_events w serial ++ iterations w O k ++ exit_tail x ++
     teardown_events w ++ [ECloseCamera; ESdkClose]) <->
  is_color_camera w = true.
Proof.
  split.
  - intros Hin. destruct (is_color_camera w) eqn:Hcol; [reflexivity|].
    exfalso.
    assert (Hf : filter is_create_processor
              (setup_events w serial ++ iterations w O k ++ exit_tail x ++
               teardown_events w ++ [ECloseCamera; ESdkClose]) = []).
    { rewrite !filter_app, filter_iterations, filter_exit_tail by reflexivity.
      unfold setup_events, teardown_events. rewrite Hcol.
      destruct (output_exists w); reflexivity. }
    assert (Hin' : In ECreateProcessor
              (filter is_create_processor
                 (setup_events w serial ++ iterations w O k ++ exit_tail x ++
                  teardown_events w ++ [ECloseCamera; ESdkClose]))).
    { apply filter_In. split; [assumption | reflexivity]. }
    rewrite Hf in Hin'. exact Hin'.
  - intros Hcol. apply in_or_app. left. unfold setup_events. rewrite Hcol.
    destruct (output_exists w); cbn; tauto.
Qed.

(** C3.  An export session with a camera leaves its loop in one of three
    ways: the target count is reached, a poll times out, or the interrupt
    arrives.  Whichever way it is, the calls of the teardown happen once
    each and in the order: disarm the camera, release the sink, dispose the
    color processor, dispose the color SDK handle, where the two disposals
    are made exactly when a color processor was created; none of these calls
    happens before the loop has stopped. *)
Theorem export_teardown_order (w : World) (N : nat) :
  cameras w <> [] ->
  (exists k x, loop_exits w N O k x) /\
  forall k x,
    loop_exits w N O k x ->
    result_of (export_session w N) = exit_result x /\
    filter is_teardown (trace_of (export_session w N)) =
      [EDisarm; ERelease] ++
      (if is_color_camera w then [EDisposeProcessor; EDisposeColorSdk] else []) /\
    (In ECreateProcessor (trace_of (export_session w N)) <->
     is_color_camera w = true) /\
    exists before,
      trace_of (export_session w N) =
        before ++ teardown_events w ++ [ECloseCamera; ESdkClose] /\
      filter is_teardown before = [] /\
      List.length (filter is_poll before) = (k + List.length (exit_tail x))%nat.
Proof.
  intros Hc. split; [apply loop_exits_total|].
  intros k x Hx.
  destruct (cameras w) as [|serial rest] eqn:E; [congruence|].
  unfold trace_of, result_of, run.
  rewrite (export_session_run w N serial rest k x E Hx). cbn [fst snd].
  split; [reflexivity|]. split; [|split].
  - rewrite !filter_app, filter_teardown_setup_events,
      filter_iterations, filter_exit_tail, filter_teardown_teardown_events
      by reflexivity.
    destruct (is_color_camera w); reflexivity.
  - apply created_iff_color.
  - exists (setup_events w serial ++ iterations w O k ++ exit_tail x).
    split; [|split].
    + rewrite <- !app_assoc. reflexivity.
    + apply filter_teardown_before.
    + rewrite !filter_app, !length_app, filter_poll_setup_events,
        filter_poll_iterations.
      destruct x; reflexivity.
Qed.

Lemma precedes_after (p q : event -> bool) (before rest : trace) :
  (forall e, p e = true -> is_teardown e = true) ->
  (forall e, q e = true -> is_teardown e = true) ->
  filter is_teardown before = [] ->
  precedes p q (before ++ rest) = precedes p q rest.
Proof.
  intros Hp Hq Hf. unfold precedes. rewrite !position_app.
  rewrite (position_none p is_teardown before Hp Hf).
  rewrite (position_none q is_teardown before Hq Hf).
  destruct (position p rest) as [a|], (position q rest) as [b|];
    cbn [option_map]; try reflexivity.
  destruct (Nat.ltb_spec a b), (Nat.ltb_spec (List.length before + a) (List.length before + b));
    try reflexivity; lia.
Qed.

(** C5, as amended.  In every export session of a color camera the camera
    is disarmed first, and the color processor and the color SDK handle are
    disposed after that (and after the release of the sink, the processor
    before the SDK handle); neither disposal comes before the disarm. *)
Theorem color_disposal_follows_disarm (w : World) (N : nat) :
  cameras w <> [] ->
  is_color_camera w = true ->
  disposed_after_disarm (trace_of (export_session w N)) = true /\
  precedes is_release is_dispose_processor (trace_of (export_session w N)) = true /\
  precedes is_dispose_processor is_dispose_color_sdk
    (trace_of (export_session w N)) = true /\
  precedes is_dispose_processor is_disarm (trace_of (export_session w N)) = false /\
  precedes is_dispose_color_sdk is_disarm (trace_of (export_session w N)) = false.
Proof.
  intros Hc Hcol.
  destruct (cameras w) as [|serial rest] eqn:E; [congruence|].
  destruct (loop_exits_total w N O) as (k & x & Hx).
  unfold disposed_after_disarm, trace_of, run.
  rewrite (export_session_run w N serial rest k x E Hx). cbn [fst].
  replace (setup_events w serial ++ iterations w O k ++ exit_tail x ++
           teardown_events w ++ [ECloseCamera; ESdkClose])
    with ((setup_events w serial ++ iterations w O k ++ exit_tail x) ++
          teardown_events w ++ [ECloseCamera; ESdkClose])
    by (now rewrite <- !app_assoc).
  rewrite !(precedes_after _ _
              (setup_events w serial ++ iterations w O k ++ exit_tail x));
    [ | solve [ apply filter_teardown_before
              | intros e He; destruct e;
                solve [reflexivity | cbn in He; discriminate He] ] .. ].
  unfold teardown_events, log_error. rewrite Hcol.
  destruct (processor_dispose_error w), (color_sdk_dispose_error w);
    repeat split; reflexivity.
Qed.

(** ** The loops of video.py *)

Section VideoLoops.

Local Open Scope nat_scope.

Variable w : World.

Lemma get_camera_frame_frame (i : nat) (buf : image) :
  polls w i = PFrame buf ->
  get_camera_frame w i = ([EPoll], S i, Ok (Some (normalize_image buf))).
Proof.
  intros Hp. unfold get_camera_frame, bind, get_pending_frame_or_null.
  rewrite Hp. reflexivity.
Qed.

Lemma get_camera_frame_null (i : nat) :
  polls w i = PNull -> get_camera_frame w i = ([EPoll], S i, Ok None).
Proof.
  intros Hp. unfold get_camera_frame, bind, get_pending_frame_or_null.
  rewrite Hp. reflexivity.
Qed.

Lemma get_camera_frame_interrupt (i : nat) :
  polls w i = PInterrupt ->
  get_camera_frame w i = ([EPoll], S i, Raise KeyboardInterrupt).
Proof.
  intros Hp. unfold get_camera_frame, bind, get_pending_frame_or_null.
  rewrite Hp. reflexivity.
Qed.

Lemma first_frame_wait_some (fuel i : nat) (img : image) :
  first_frame_wait w fuel (Some img) i = ([], i, Ok img).
Proof. destruct fuel; reflexivity. Qed.

Lemma first_frame_wait_null (fuel i : nat) :
  polls w i = PNull ->
  first_frame_wait w (S fuel) None i =
  prepend [EPoll] (first_frame_wait w fuel None (S i)).
Proof.
  intros Hp. cbn [first_frame_wait]. unfold bind at 1.
  rewrite (get_camera_frame_null i Hp).
  destruct (first_frame_wait w fuel None (S i)) as [[t j] r]. reflexivity.
Qed.

Lemma first_frame_wait_frame (fuel i : nat) (buf : image) :
  polls w i = PFrame buf ->
  first_frame_wait w (S fuel) None i = ([EPoll], S i, Ok (normalize_image buf)).
Proof.
  intros Hp. cbn [first_frame_wait]. unfold bind at 1.
  rewrite (get_camera_frame_frame i buf Hp), first_frame_wait_some.
  reflexivity.
Qed.

Lemma first_frame_wait_interrupt (fuel i : nat) :
  polls w i = PInterrupt ->
  first_frame_wait w (S fuel) None i = ([EPoll], S i, Raise KeyboardInterrupt).
Proof.
  intros Hp. cbn [first_frame_wait]. unfold bind at 1.
  rewrite (get_camera_frame_interrupt i Hp). reflexivity.
Qed.

(** [k] null polls are [k] silent iterations. *)
Lemma first_frame_wait_nulls (k : nat) :
  forall fuel i,
    (forall j, (j < k)%nat -> polls w (i + j) = PNull) ->
    first_frame_wait w (k + fuel) None i =
    prepend (repeat EPoll k) (first_frame_wait w fuel None (i + k)%nat).
Proof.
  induction k as [|k IH]; intros fuel i Hn.
  - rewrite Nat.add_0_r. cbn [Nat.add repeat prepend].
    destruct (first_frame_wait w fuel None i) as [[t j] r]. reflexivity.
  - cbn [Nat.add]. rewrite first_frame_wait_null.
    + rewrite (IH fuel (S i)).
      * replace (S i + k)%nat with (i + S k)%nat by lia.
        destruct (first_frame_wait w fuel None (i + S k)) as [[t j] r].
        reflexivity.
      * intros j Hj. replace (S i + j)%nat with (i + S j)%nat by lia.
        apply Hn. lia.
    + specialize (Hn O). rewrite Nat.add_0_r in Hn. apply Hn. lia.
Qed.

Lemma display_loop_step (fuel i : nat) :
  polls w i <> PInterrupt ->
  display_loop w (S fuel) i =
  prepend (display_iteration w i) (display_loop w fuel (S i)).
Proof.
  intros Hp. cbn [display_loop]. unfold display_iteration.
  unfold bind at 1. unfold bind at 1.
  destruct (polls w i) as [buf| |] eqn:E; [| |congruence].
  - rewrite (get_camera_frame_frame i buf E).
    cbv beta iota zeta delta [bind emit].
    destruct (display_loop w fuel (S i)) as [[t j] r]. reflexivity.
  - rewrite (get_camera_frame_null i E).
    cbv beta iota zeta delta [bind emit].
    destruct (display_loop w fuel (S i)) as [[t j] r]. reflexivity.
Qed.

Lemma display_loop_interrupt (fuel i : nat) :
  polls w i = PInterrupt ->
  display_loop w (S fuel) i = ([EPoll], S i, Raise KeyboardInterrupt).
Proof.
  intros Hp. cbn [display_loop]. unfold bind at 1. unfold bind at 1.
  rewrite (get_camera_frame_interrupt i Hp). reflexivity.
Qed.

(** Without an interrupt the display loop goes on, whatever the polls
    return. *)
Lemma display_loop_running (fuel : nat) :
  forall i,
    (forall j, (j < fuel)%nat -> polls w (i + j) <> PInterrupt) ->
    display_loop w fuel i = (display_events w i fuel, (i + fuel)%nat, Running).
Proof.
  induction fuel as [|fuel IH]; intros i Hn.
  - rewrite Nat.add_0_r. reflexivity.
  - rewrite display_loop_step.
    + rewrite (IH (S i)).
      * unfold display_events. cbn [seq flat_map prepend].
        f_equal. f_equal. lia.
      * intros j Hj. replace (S i + j)%nat with (i + S j)%nat by lia.
        apply Hn. lia.
    + specialize (Hn O). rewrite Nat.add_0_r in Hn. apply Hn. lia.
Qed.

(** The interrupt at the [m]-th poll of the display loop stops it. *)
Lemma display_loop_interrupted (m : nat) :
  forall fuel i,
    (forall j, (j < m)%nat -> polls w (i + j) <> PInterrupt) ->
    polls w (i + m) = PInterrupt ->
    display_loop w (m + S fuel) i =
    (display_events w i m ++ [EPoll], S (i + m), Raise KeyboardInterrupt).
Proof.
  induction m as [|m IH]; intros fuel i Hn Hp.
  - rewrite Nat.add_0_r in *. apply display_loop_interrupt. assumption.
  - cbn [Nat.add]. rewrite display_loop_step.
    + rewrite (IH fuel (S i)).
      * unfold display_events. cbn [seq flat_map prepend].
        rewrite <- app_assoc. f_equal. f_equal. lia.
      * intros j Hj. replace (S i + j)%nat with (i + S j)%nat by lia.
        apply Hn. lia.
      * replace (S i + m)%nat with (i + S m)%nat by lia. assumption.
    + specialize (Hn O). rewrite Nat.add_0_r in Hn. apply Hn. lia.
Qed.

Lemma displayed_display_events (i k : nat) :
  displayed (display_events w i k) = frames_between w i k.
Proof.
  unfold display_events, frames_between. revert i.
  induction k as [|k IH]; intros i; [reflexivity|].
  cbn [seq flat_map]. unfold displayed in *. rewrite flat_map_app, IH.
  f_equal. unfold display_iteration. destruct (polls w i); reflexivity.
Qed.

Lemma no_frame_logs_display_events (i k : nat) :
  List.length (filter is_no_frame_log (display_events w i k)) =
  List.length (filter (fun j => is_null (polls w j)) (seq i k)).
Proof.
  unfold display_events. revert i.
  induction k as [|k IH]; intros i; [reflexivity|].
  cbn [seq flat_map filter]. rewrite filter_app, length_app, IH.
  unfold display_iteration. destruct (polls w i); reflexivity.
Qed.

End VideoLoops.

(** ** The live view as a whole *)

Section VideoMain.

Local Open Scope nat_scope.

Variable w : World.
Variables (serial : string) (rest : list string).
Hypothesis Hcameras : cameras w = serial :: rest.

Lemma first_frame_wait_found (fuel k : nat) (buf : image) :
  first_frame_at w k buf -> k < fuel ->
  first_frame_wait w fuel None 0 =
  (repeat EPoll (S k), S k, Ok (normalize_image buf)).
Proof.
  intros [Hn Hp] Hk. replace fuel with (k + S (fuel - S k)) by lia.
  rewrite (first_frame_wait_nulls w k (S (fuel - S k)) 0 Hn).
  cbn [Nat.add]. rewrite (first_frame_wait_frame w _ k buf Hp).
  cbn [prepend]. rewrite <- repeat_cons. reflexivity.
Qed.

Lemma first_frame_wait_waiting (fuel : nat) :
  (forall j, j < fuel -> polls w j = PNull) ->
  first_frame_wait w fuel None 0 = (repeat EPoll fuel, fuel, Running).
Proof.
  intros Hn. replace fuel with (fuel + 0) at 1 by lia.
  rewrite (first_frame_wait_nulls w fuel 0 0 Hn). cbn [Nat.add].
  cbn [first_frame_wait running prepend]. now rewrite app_nil_r.
Qed.

Lemma first_frame_wait_interrupted (fuel k : nat) :
  (forall j, j < k -> polls w j = PNull) -> polls w k = PInterrupt ->
  k < fuel ->
  first_frame_wait w fuel None 0 =
  (repeat EPoll (S k), S k, Raise KeyboardInterrupt).
Proof.
  intros Hn Hp Hk. replace fuel with (k + S (fuel - S k)) by lia.
  rewrite (first_frame_wait_nulls w k (S (fuel - S k)) 0 Hn).
  cbn [Nat.add]. rewrite (first_frame_wait_interrupt w _ k Hp).
  cbn [prepend]. rewrite <- repeat_cons. reflexivity.
Qed.

Ltac norm_trace :=
  unfold video_setup_events, plot_events, video_teardown_events;
  cbn [app]; repeat (rewrite <- app_assoc; cbn [app]); reflexivity.

Ltac step_main :=
  unfold main; rewrite Hcameras;
  cbv beta iota zeta delta
    [with_ try_finally try_except bind emit ret index0 setup_plot].

(** All polls so far returned null: [main] is still waiting for its first
    frame. *)
Lemma main_waiting (fuel : nat) :
  (forall j, j < fuel -> polls w j = PNull) ->
  main w fuel 0 = (video_setup_events serial ++ repeat EPoll fuel, fuel, Running).
Proof.
  intros Hn. step_main. rewrite (first_frame_wait_waiting fuel Hn).
  reflexivity.
Qed.

(** The interrupt arrives while [main] waits for its first frame. *)
Lemma main_interrupted_waiting (fuel k : nat) :
  (forall j, j < k -> polls w j = PNull) -> polls w k = PInterrupt ->
  k < fuel ->
  main w fuel 0 =
  (video_setup_events serial ++ repeat EPoll (S k) ++ [ECloseCamera; ESdkClose],
   S k, Raise KeyboardInterrupt).
Proof.
  intros Hn Hp Hk. step_main.
  rewrite (first_frame_wait_interrupted fuel k Hn Hp Hk).
  norm_trace.
Qed.

(** The first frame has come and no interrupt since: [main] is in its
    display loop. *)
Lemma main_displaying (fuel k : nat) (buf : image) :
  first_frame_at w k buf -> k < fuel ->
  (forall j, j < fuel -> polls w (S k + j) <> PInterrupt) ->
  main w fuel 0 =
  (video_setup_events serial ++ repeat EPoll (S k) ++
   plot_events (normalize_image buf) ++ display_events w (S k) fuel,
   S k + fuel, Running).
Proof.
  intros Hf Hk Hn. step_main.
  rewrite (first_frame_wait_found fuel k buf Hf Hk).
  cbv beta iota zeta.
  rewrite (display_loop_running w fuel (S k) Hn).
  cbv beta iota zeta. norm_trace.
Qed.

(** The interrupt arrives at the [m]-th poll of the display loop. *)
Lemma main_interrupted_displaying (fuel k m : nat) (buf : image) :
  first_frame_at w k buf -> k < fuel -> m < fuel ->
  (forall j, j < m -> polls w (S k + j) <> PInterrupt) ->
  polls w (S k + m) = PInterrupt ->
  main w fuel 0 =
  (video_setup_events serial ++ repeat EPoll (S k) ++
   plot_events (normalize_image buf) ++ display_events w (S k) m ++
   [EPoll; EPrint "Interrupted by user."] ++ video_teardown_events ++
   [ECloseCamera; ESdkClose],
   S (S k + m), Ok tt).
Proof.
  intros Hf Hk Hm Hn Hp. step_main.
  rewrite (first_frame_wait_found fuel k buf Hf Hk).
  cbv beta iota zeta.
  replace fuel with (m + S (fuel - S m)) at 1 by lia.
  rewrite (display_loop_interrupted w m (fuel - S m) (S k) Hn Hp).
  cbv beta iota zeta. norm_trace.
Qed.

End VideoMain.

Lemma main_no_camera (w : World) (fuel : nat) :
  cameras w = [] ->
  main w fuel O =
  ([ESdkOpen; EDiscover; EPrint "No cameras detected."; ESdkClose], O, Ok tt).
Proof. intros Hc. unfold main. rewrite Hc. reflexivity. Qed.

(** ** No camera *)

(** C4.  When the discovery returns no camera, both scripts stop before a
    camera is opened or armed, before any color resource or sink is created
    and before any poll.  The export script prints its error and is then
    aborted by the [IndexError] of [cameras[0]]; the live view prints its
    message and returns from [main].  In both, the only collaborator calls
    are the opening of the camera SDK, the discovery and the closing of the
    SDK (and, for the export, the removal of a previous output file, which
    comes first). *)
Theorem no_camera_aborts_before_arming (w : World) (N fuel : nat) :
  cameras w = [] ->
  (result_of (export_session w N) = Raise IndexError /\
   trace_of (export_session w N) =
     (if output_exists w then [ERemoveFile] else []) ++
     [ESdkOpen; EDiscover; EPrint "Error: no cameras detected!"; ESdkClose] /\
   filter is_arm (trace_of (export_session w N)) = [] /\
   filter is_poll (trace_of (export_session w N)) = [] /\
   filter is_sink (trace_of (export_session w N)) = [] /\
   filter is_color_resource (trace_of (export_session w N)) = []) /\
  (result_of (main w fuel) = Ok tt /\
   trace_of (main w fuel) =
     [ESdkOpen; EDiscover; EPrint "No cameras detected."; ESdkClose] /\
   filter is_arm (trace_of (main w fuel)) = [] /\
   filter is_poll (trace_of (main w fuel)) = [] /\
   filter is_sink (trace_of (main w fuel)) = []).
Proof.
  intros Hc. unfold result_of, trace_of, run.
  rewrite (export_session_no_camera w N Hc), (main_no_camera w fuel Hc).
  cbn [fst snd]. destruct (output_exists w); repeat split; reflexivity.
Qed.

(** ** The wait for the first frame *)

Section FirstFrame.

Local Open Scope nat_scope.

Variable w : World.

Lemma first_frame_wait_ok_inv (fuel : nat) :
  forall i t j img,
    first_frame_wait w fuel None i = (t, j, Ok img) ->
    exists k buf,
      (forall m, m < k -> polls w (i + m) = PNull) /\
      polls w (i + k) = PFrame buf.
Proof.
  induction fuel as [|fuel IH]; intros i t j img H; [discriminate|].
  destruct (polls w i) as [buf| |] eqn:Hp.
  - exists 0, buf. rewrite Nat.add_0_r. split; [intros m Hm; lia | assumption].
  - rewrite (first_frame_wait_null w fuel i Hp) in H.
    destruct (first_frame_wait w fuel None (S i)) as [[t' j'] r'] eqn:E.
    cbn [prepend] in H. injection H as _ _ Hr. subst r'.
    destruct (IH (S i) t' j' img E) as (k & buf & Hn & Hf).
    exists (S k), buf. split.
    + intros [|m] Hm; [now rewrite Nat.add_0_r|].
      replace (i + S m) with (S i + m) by lia. apply Hn. lia.
    + replace (i + S k) with (S i + k) by lia. assumption.
  - rewrite (first_frame_wait_interrupt w fuel i Hp) in H. discriminate.
Qed.

Lemma first_frame_wait_raise_inv (fuel : nat) :
  forall i t j e,
    first_frame_wait w fuel None i = (t, j, Raise e) ->
    exists k, polls w (i + k) = PInterrupt.
Proof.
  induction fuel as [|fuel IH]; intros i t j e H; [discriminate|].
  destruct (polls w i) as [buf| |] eqn:Hp.
  - rewrite (first_frame_wait_frame w fuel i buf Hp) in H. discriminate.
  - rewrite (first_frame_wait_null w fuel i Hp) in H.
    destruct (first_frame_wait w fuel None (S i)) as [[t' j'] r'] eqn:E.
    cbn [prepend] in H. injection H as _ _ Hr. subst r'.
    destruct (IH (S i) t' j' e E) as (k & Hk).
    exists (S k). replace (i + S k) with (S i + k) by lia. assumption.
  - exists 0. now rewrite Nat.add_0_r.
Qed.

(** Without interrupts, the first frame is preceded by null polls only. *)
Lemma least_frame (k : nat) :
  (forall j, polls w j <> PInterrupt) ->
  forall i,
    is_frame (polls w (i + k)) = true ->
    exists k' buf,
      (forall m, m < k' -> polls w (i + m) = PNull) /\
      polls w (i + k') = PFrame buf.
Proof.
  intros Hni. induction k as [|k IH]; intros i Hf.
  - rewrite Nat.add_0_r in Hf.
    destruct (polls w i) as [buf| |] eqn:Hp; try discriminate.
    exists 0, buf. rewrite Nat.add_0_r. split; [intros m Hm; lia | assumption].
  - destruct (polls w i) as [buf| |] eqn:Hp.
    + exists 0, buf. rewrite Nat.add_0_r.
      split; [intros m Hm; lia | assumption].
    + replace (i + S k) with (S i + k) in Hf by lia.
      destruct (IH (S i) Hf) as (k' & buf & Hn & Hp').
      exists (S k'), buf. split.
      * intros [|m] Hm; [now rewrite Nat.add_0_r|].
        replace (i + S m) with (S i + m) by lia. apply Hn. lia.
      * replace (i + S k') with (S i + k') by lia. assumption.
    + exfalso. exact (Hni i Hp).
Qed.

End FirstFrame.

(** [main] initialises the display right after the poll that gave the first
    frame, whatever happens later. *)
Lemma main_plot_after_first_frame (w : World) (serial : string)
  (rest : list string) (fuel k : nat) (buf : image) :
  cameras w = serial :: rest ->
  first_frame_at w k buf -> (k < fuel)%nat ->
  exists later,
    trace_of (main w fuel) =
    video_setup_events serial ++ repeat EPoll (S k) ++
    plot_events (normalize_image buf) ++ later.
Proof.
  intros Hc Hf Hk. unfold trace_of, run, main. rewrite Hc.
  cbv beta iota zeta delta
    [with_ try_finally try_except bind emit ret index0 setup_plot].
  rewrite (first_frame_wait_found w fuel k buf Hf Hk).
  cbv beta iota zeta.
  destruct (display_loop w fuel (S k)) as [[t j] r].
  destruct r as [a|e|]; [| destruct e |]; cbn [fst];
    eexists; unfold video_setup_events, plot_events;
    cbn [app]; repeat (rewrite <- app_assoc; cbn [app]); reflexivity.
Qed.

(** C10.  The wait for the first frame (started at poll 0, with the variable
    [first_frame] holding [None]) returns normally if and only if some poll
    returns a frame after null polls only.  When the first frame comes at
    poll [k], the loop has made the [k + 1] polls and nothing else: no
    print and no call on the display; [main] initialises the display right
    after these polls.  While all polls return null the loop goes on, again
    with polls only.  When no interrupt occurs, the loop stops if and only
    if some poll returns a frame. *)
Theorem first_frame_wait_terminates_iff (w : World) :
  ((exists fuel t j img, first_frame_wait w fuel None O = (t, j, Ok img)) <->
   (exists k buf, first_frame_at w k buf)) /\
  (forall fuel k buf,
     first_frame_at w k buf -> (k < fuel)%nat ->
     first_frame_wait w fuel None O =
     (repeat EPoll (S k), S k, Ok (normalize_image buf))) /\
  (forall fuel,
     (forall j, (j < fuel)%nat -> polls w j = PNull) ->
     first_frame_wait w fuel None O = (repeat EPoll fuel, fuel, Running)) /\
  ((forall j, polls w j <> PInterrupt) ->
   ((exists fuel, snd (first_frame_wait w fuel None O) <> Running) <->
    (exists k, is_frame (polls w k) = true))) /\
  (forall serial rest fuel,
     cameras w = serial :: rest ->
     (forall j, (j < fuel)%nat -> polls w j = PNull) ->
     main w fuel O =
     (video_setup_events serial ++ repeat EPoll fuel, fuel, Running)) /\
  (forall serial rest fuel k buf,
     cameras w = serial :: rest ->
     first_frame_at w k buf -> (k < fuel)%nat ->
     exists later,
       trace_of (main w fuel) =
       video_setup_events serial ++ repeat EPoll (S k) ++
       plot_events (normalize_image buf) ++ later).
Proof.
  split; [|split; [|split; [|split; [|split]]]].
  - split.
    + intros (fuel & t & j & img & H).
      destruct (first_frame_wait_ok_inv w fuel O t j img H) as (k & buf & Hn & Hp).
      exists k, buf. split; assumption.
    + intros (k & buf & Hf). exists (S k).
      rewrite (first_frame_wait_found w (S k) k buf Hf (Nat.lt_succ_diag_r k)).
      eauto.
  - intros fuel k buf Hf Hk. apply (first_frame_wait_found w fuel k buf Hf Hk).
  - intros fuel Hn. apply (first_frame_wait_waiting w fuel Hn).
  - intros Hni. split.
    + intros (fuel & H).
      destruct (first_frame_wait w fuel None O) as [[t j] r] eqn:E.
      cbn [snd] in H. destruct r as [img|e|]; [| |congruence].
      * destruct (first_frame_wait_ok_inv w fuel O t j img E) as (k & buf & _ & Hp).
        exists k. cbn [Nat.add] in Hp. rewrite Hp. reflexivity.
      * destruct (first_frame_wait_raise_inv w fuel O t j e E) as (k & Hp).
        exfalso. exact (Hni _ Hp).
    + intros (k & Hf).
      destruct (least_frame w k Hni O Hf) as (k' & buf & Hn & Hp).
      exists (S k').
      rewrite (first_frame_wait_found w (S k') k' buf (conj Hn Hp)
                 (Nat.lt_succ_diag_r k')).
      discriminate.
  - intros serial rest fuel Hc Hn. apply (main_waiting w serial rest Hc fuel Hn).
  - intros serial rest fuel k buf Hc Hf Hk.
    apply (main_plot_after_first_frame w serial rest fuel k buf Hc Hf Hk).
Qed.

(** ** Null polls in the display loop *)

(** C7.  In the display loop a poll that returns null makes an iteration of
    exactly two events, the poll and the print of "No frame received.", with
    no call on the display, and the loop goes on with the next poll.
    Hence, as long as no interrupt arrives, the loop has not stopped after
    any number of iterations, it has made one poll per iteration, the
    display has received exactly the normalised frames of the polls that
    returned one, in order, and the message was printed once per null
    poll. *)
Theorem null_poll_continues_display_loop (w : World) (fuel i : nat) :
  (polls w i = PNull ->
   display_loop w (S fuel) i =
   prepend [EPoll; EPrint "No frame received."] (display_loop w fuel (S i))) /\
  ((forall j, (j < fuel)%nat -> polls w (i + j) <> PInterrupt) ->
   snd (display_loop w fuel i) = Running /\
   snd (fst (display_loop w fuel i)) = (i + fuel)%nat /\
   List.length (filter is_poll (fst (fst (display_loop w fuel i)))) = fuel /\
   displayed (fst (fst (display_loop w fuel i))) = frames_between w i fuel /\
   List.length (filter is_no_frame_log (fst (fst (display_loop w fuel i)))) =
     List.length (filter (fun j => is_null (polls w j)) (seq i fuel))).
Proof.
  split.
  - intros Hp. rewrite display_loop_step by congruence.
    unfold display_iteration. rewrite Hp. reflexivity.
  - intros Hn. rewrite (display_loop_running w fuel i Hn). cbn [fst snd].
    split; [reflexivity|]. split; [reflexivity|]. split; [|split].
    + unfold display_events. clear Hn. revert i.
      induction fuel as [|fuel IH]; intros i; [reflexivity|].
      cbn [seq flat_map]. rewrite filter_app, length_app, IH.
      unfold display_iteration. destruct (polls w i); reflexivity.
    + apply displayed_display_events.
    + apply no_frame_logs_display_events.
Qed.

(** ** Min-max normalisation *)

Section Normalisation.

Lemma cvRound_inject (q : Q) (z : Z) :
  (q == inject_Z z)%Q -> cv2.cvRound q = z.
Proof.
  intros H. unfold cv2.cvRound.
  assert (Hf : Qfloor q = z) by (rewrite H; apply Qfloor_Z).
  rewrite Hf.
  assert (Hc : ((q - inject_Z z) ?= (1 # 2))%Q = Lt).
  { rewrite H. apply Qlt_alt. unfold Qminus.
    rewrite Qplus_opp_r. reflexivity. }
  rewrite Hc. reflexivity.
Qed.

Lemma cvRound_range (q : Q) (a b : Z) :
  (inject_Z a <= q)%Q -> (q <= inject_Z b)%Q -> a <= cv2.cvRound q <= b.
Proof.
  intros Ha Hb. unfold cv2.cvRound.
  assert (Hfa : a <= Qfloor q).
  { rewrite <- (Qfloor_Z a). apply Qfloor_resp_le. assumption. }
  assert (Hfb : Qfloor q <= b).
  { rewrite <- (Qfloor_Z b). apply Qfloor_resp_le. assumption. }
  destruct ((q - inject_Z (Qfloor q)) ?= (1 # 2))%Q eqn:Hc.
  - destruct (Z.even (Qfloor q)); [lia|].
    enough (Qfloor q <> b) by lia. intros Heq.
    apply Qeq_alt in Hc. rewrite Heq in Hc.
    assert (Hle : (q - inject_Z b <= 0)%Q).
    { unfold Qminus. rewrite <- (Qplus_opp_r (inject_Z b)).
      apply Qplus_le_compat; [assumption | apply Qle_refl]. }
    rewrite Hc in Hle. unfold Qle in Hle. cbn in Hle. lia.
  - lia.
  - enough (Qfloor q <> b) by lia. intros Heq.
    apply Qgt_alt in Hc. rewrite Heq in Hc.
    assert (Hle : (q - inject_Z b <= 0)%Q).
    { unfold Qminus. rewrite <- (Qplus_opp_r (inject_Z b)).
      apply Qplus_le_compat; [assumption | apply Qle_refl]. }
    apply (Qlt_not_le _ _ Hc). apply (Qle_trans _ 0); [assumption|].
    unfold Qle. cbn. lia.
Qed.

Lemma sample_value_spread (lo hi v : Z) :
  lo < hi ->
  (inject_Z v * minmax_scale lo hi + minmax_shift lo hi ==
   inject_Z (255 * (v - lo)) / inject_Z (hi - lo))%Q.
Proof.
  intros H. unfold minmax_shift, minmax_scale.
  destruct (Z.ltb_spec 0 (hi - lo)); [|lia].
  assert (Hd : ~ (inject_Z (hi - lo) == 0)%Q).
  { intros Hz. change 0%Q with (inject_Z 0) in Hz.
    apply (proj1 (inject_Z_injective _ _)) in Hz. lia. }
  set (d := inject_Z (hi - lo)) in *.
  replace (inject_Z (255 * (v - lo)))
    with (inject_Z 255 * (inject_Z v - inject_Z lo))%Q
    by (rewrite inject_Z_mult; unfold Z.sub;
        rewrite inject_Z_plus, inject_Z_opp; reflexivity).
  change (inject_Z (Z.max 0 255 - Z.min 0 255)) with (inject_Z 255).
  change (inject_Z (Z.min 0 255)) with 0%Q.
  field. exact Hd.
Qed.

Lemma sample_value_flat (lo hi v : Z) :
  hi <= lo ->
  (inject_Z v * minmax_scale lo hi + minmax_shift lo hi == inject_Z 0)%Q.
Proof.
  intros H. unfold minmax_shift, minmax_scale.
  destruct (Z.ltb_spec 0 (hi - lo)); [lia|].
  change (inject_Z (Z.min 0 255)) with 0%Q. change (inject_Z 0) with 0%Q.
  ring.
Qed.

Lemma saturate_cast_ushort_small (z : Z) :
  0 <= z <= 255 -> cv2.saturate_cast_ushort z = z.
Proof. intros H. unfold cv2.saturate_cast_ushort. lia. Qed.

Lemma normalize_sample_min (lo hi : Z) :
  lo < hi -> normalize_sample lo hi lo = 0.
Proof.
  intros H. unfold normalize_sample.
  rewrite (cvRound_inject _ 0); [reflexivity|].
  rewrite (sample_value_spread lo hi lo H).
  replace (255 * (lo - lo)) with 0 by lia.
  change (inject_Z 0) with 0%Q. unfold Qdiv. ring.
Qed.

Lemma normalize_sample_max (lo hi : Z) :
  lo < hi -> normalize_sample lo hi hi = 255.
Proof.
  intros H. unfold normalize_sample.
  rewrite (cvRound_inject _ 255); [reflexivity|].
  rewrite (sample_value_spread lo hi hi H).
  rewrite inject_Z_mult. field.
  intros Hz. change 0%Q with (inject_Z 0) in Hz.
  apply (proj1 (inject_Z_injective _ _)) in Hz. lia.
Qed.

Lemma normalize_sample_flat (lo hi v : Z) :
  hi <= lo -> normalize_sample lo hi v = 0.
Proof.
  intros H. unfold normalize_sample.
  rewrite (cvRound_inject _ 0); [reflexivity|].
  apply (sample_value_flat lo hi v H).
Qed.

Lemma normalize_sample_range (lo hi v : Z) :
  lo <= v <= hi -> 0 <= normalize_sample lo hi v <= 255.
Proof.
  intros Hv. destruct (Z.lt_ge_cases lo hi) as [H|H].
  - unfold normalize_sample.
    assert (Hd : (0 < inject_Z (hi - lo))%Q).
    { change 0%Q with (inject_Z 0). rewrite <- Zlt_Qlt. lia. }
    assert (Hr : 0 <= cv2.cvRound
                       (inject_Z v * minmax_scale lo hi + minmax_shift lo hi) <= 255).
    { apply cvRound_range; rewrite (sample_value_spread lo hi v H).
      - apply Qle_shift_div_l; [assumption|].
        rewrite <- inject_Z_mult, <- Zle_Qle. nia.
      - apply Qle_shift_div_r; [assumption|].
        rewrite <- inject_Z_mult, <- Zle_Qle. nia. }
    rewrite saturate_cast_ushort_small; assumption.
  - rewrite normalize_sample_flat by assumption. lia.
Qed.

Lemma fold_min_le (x : Z) (rest : list Z) :
  fold_right Z.min x rest <= x /\
  forall v, In v rest -> fold_right Z.min x rest <= v.
Proof.
  induction rest as [|y rest [IH1 IH2]]; cbn [fold_right].
  - split; [lia | intros v []].
  - split; [lia|].
    intros v [->|Hin]; [lia|]. specialize (IH2 v Hin). lia.
Qed.

Lemma fold_max_ge (x : Z) (rest : list Z) :
  x <= fold_right Z.max x rest /\
  forall v, In v rest -> v <= fold_right Z.max x rest.
Proof.
  induction rest as [|y rest [IH1 IH2]]; cbn [fold_right].
  - split; [lia | intros v []].
  - split; [lia|].
    intros v [->|Hin]; [lia|]. specialize (IH2 v Hin). lia.
Qed.

Lemma minMax_bounds (buf : image) (lo hi : Z) :
  cv2.minMax buf = (lo, hi) -> forall v, In v buf -> lo <= v <= hi.
Proof.
  destruct buf as [|x rest]; [intros _ v []|].
  cbn [cv2.minMax]. intros H. injection H as Hlo Hhi. subst lo hi.
  destruct (fold_min_le x rest) as [Hmin1 Hmin].
  destruct (fold_max_ge x rest) as [Hmax1 Hmax].
  intros v [->|Hin]; [lia|].
  specialize (Hmin v Hin). specialize (Hmax v Hin). lia.
Qed.

Lemma minMax_attained (buf : image) (lo hi : Z) :
  buf <> [] -> cv2.minMax buf = (lo, hi) -> In lo buf /\ In hi buf.
Proof.
  destruct buf as [|x rest]; [congruence|]. intros _.
  cbn [cv2.minMax]. intros H. injection H as Hlo Hhi. subst lo hi.
  split.
  - induction rest as [|y rest IH]; cbn [fold_right]; [left; reflexivity|].
    destruct (Z.min_spec y (fold_right Z.min x rest)) as [[_ ->]|[_ ->]].
    + right. left. reflexivity.
    + destruct IH as [IH|IH]; [left; assumption | right; right; assumption].
  - induction rest as [|y rest IH]; cbn [fold_right]; [left; reflexivity|].
    destruct (Z.max_spec y (fold_right Z.max x rest)) as [[_ ->]|[_ ->]].
    + destruct IH as [IH|IH]; [left; assumption | right; right; assumption].
    + right. left. reflexivity.
Qed.

Lemma normalize_image_samples (buf : image) (lo hi : Z) :
  cv2.minMax buf = (lo, hi) ->
  normalize_image buf = map (normalize_sample lo hi) buf.
Proof.
  intros H. unfold normalize_image, cv2.normalize. rewrite H. reflexivity.
Qed.

Lemma normalize_image_range (buf : image) :
  Forall (fun v => 0 <= v <= 255) (normalize_image buf).
Proof.
  destruct (cv2.minMax buf) as [lo hi] eqn:E.
  rewrite (normalize_image_samples buf lo hi E).
  apply Forall_map, Forall_forall. intros v Hin.
  apply normalize_sample_range. exact (minMax_bounds buf lo hi E v Hin).
Qed.

End Normalisation.

(** ** What the display receives *)

Section Displayed.

Local Open Scope nat_scope.

Variable w : World.

Lemma displayed_app (t1 t2 : trace) :
  displayed (t1 ++ t2) = displayed t1 ++ displayed t2.
Proof. apply flat_map_app. Qed.

Lemma first_frame_wait_displays_nothing (fuel : nat) :
  forall i t j r,
    first_frame_wait w fuel None i = (t, j, r) ->
    displayed t = [] /\
    filter is_print t = [] /\
    forall img, r = Ok img -> in_display_range img.
Proof.
  induction fuel as [|fuel IH]; intros i t j r H.
  - injection H as <- _ <-. repeat split. intros img Himg. discriminate.
  - destruct (polls w i) as [buf| |] eqn:Hp.
    + rewrite (first_frame_wait_frame w fuel i buf Hp) in H.
      injection H as <- _ <-. repeat split.
      intros img Himg. injection Himg as <-. apply normalize_image_range.
    + rewrite (first_frame_wait_null w fuel i Hp) in H.
      destruct (first_frame_wait w fuel None (S i)) as [[t' j'] r'] eqn:E.
      cbn [prepend] in H. injection H as <- _ <-.
      destruct (IH (S i) t' j' r' E) as (Hd & Hpr & Hr).
      cbn [app displayed flat_map filter is_print]. fold (displayed t').
      repeat split; assumption.
    + rewrite (first_frame_wait_interrupt w fuel i Hp) in H.
      injection H as <- _ <-. repeat split. intros img Himg. discriminate.
Qed.

Lemma display_loop_displays_normalized (fuel : nat) :
  forall i, Forall in_display_range (displayed (fst (fst (display_loop w fuel i)))).
Proof.
  induction fuel as [|fuel IH]; intros i; [constructor|].
  destruct (polls w i) as [buf| |] eqn:Hp.
  - rewrite display_loop_step by congruence. specialize (IH (S i)).
    destruct (display_loop w fuel (S i)) as [[t j] r].
    cbn [prepend fst] in *. rewrite displayed_app. apply Forall_app. split.
    + unfold display_iteration. rewrite Hp. cbn.
      constructor; [apply normalize_image_range | constructor].
    + assumption.
  - rewrite display_loop_step by congruence. specialize (IH (S i)).
    destruct (display_loop w fuel (S i)) as [[t j] r].
    cbn [prepend fst] in *. rewrite displayed_app. apply Forall_app. split.
    + unfold display_iteration. rewrite Hp. constructor.
    + assumption.
  - rewrite (display_loop_interrupt w fuel i Hp). constructor.
Qed.

Ltac split_displayed :=
  repeat match goal with
  | |- Forall _ (displayed (?t1 ++ ?t2)) =>
      rewrite (displayed_app t1 t2); apply Forall_app; split
  | |- Forall _ (displayed []) => constructor
  | |- Forall _ (displayed [_]) => cbn; repeat constructor; assumption
  | |- Forall _ (displayed (?e :: ?t)) =>
      change (displayed (e :: t)) with (displayed [e] ++ displayed t);
      apply Forall_app; split
  | H : displayed ?t = [] |- Forall _ (displayed ?t) => rewrite H; constructor
  | |- Forall _ (displayed ?t) => assumption
  end.

Lemma main_displays_normalized (fuel : nat) :
  Forall in_display_range (displayed (trace_of (main w fuel))).
Proof.
  unfold trace_of, run, main.
  destruct (cameras w) as [|serial rest]; [constructor|].
  cbv beta iota zeta delta
    [with_ try_finally try_except bind emit ret index0 setup_plot].
  destruct (first_frame_wait w fuel None 0) as [[t j] r] eqn:E.
  destruct (first_frame_wait_displays_nothing fuel 0 t j r E) as (Hd & _ & Hr).
  destruct r as [img|e|]; cbv beta iota zeta.
  - specialize (Hr img eq_refl).
    pose proof (display_loop_displays_normalized fuel j) as Hl.
    destruct (display_loop w fuel j) as [[t' j'] r'].
    cbn [fst] in Hl.
    destruct r' as [a|e|]; [| destruct e |]; cbn [fst]; split_displayed.
  - cbn [fst]. split_displayed.
  - cbn [fst]. split_displayed.
Qed.

End Displayed.

Lemma minMax_ordered (buf : image) (lo hi : Z) :
  cv2.minMax buf = (lo, hi) -> lo <= hi.
Proof.
  destruct buf as [|x rest]; cbn [cv2.minMax]; intros H;
    injection H as <- <-; [lia|].
  pose proof (fold_min_le x rest) as [H1 _].
  pose proof (fold_max_ge x rest) as [H2 _]. lia.
Qed.

(** C9.  Every image that the live view hands to the display ([imshow] for
    the first frame, [set_data] afterwards) has all its values in
    [[0, 255]].  These images are the results of [normalize_image] on the
    polled buffers.  For a buffer with least sample [lo] and greatest sample
    [hi], both of which occur in it: the normalised image has the same
    size; when [lo] and [hi] differ, every position holding [lo] gets 0 and
    every position holding [hi] gets 255; when they are equal, the result is
    the all-zero image. *)
Theorem normalized_display_range (w : World) (fuel : nat) :
  Forall in_display_range (displayed (trace_of (main w fuel))) /\
  (forall i buf,
     polls w i = PFrame buf ->
     get_camera_frame w i = ([EPoll], S i, Ok (Some (normalize_image buf)))) /\
  (forall buf lo hi,
     cv2.minMax buf = (lo, hi) ->
     in_display_range (normalize_image buf) /\
     List.length (normalize_image buf) = List.length buf /\
     (buf <> [] -> In lo buf /\ In hi buf) /\
     (lo <> hi ->
      forall n,
        (nth_error buf n = Some lo ->
         nth_error (normalize_image buf) n = Some 0) /\
        (nth_error buf n = Some hi ->
         nth_error (normalize_image buf) n = Some 255)) /\
     (lo = hi -> normalize_image buf = map (fun _ => 0) buf)).
Proof.
  split; [|split].
  - apply main_displays_normalized.
  - intros i buf Hp. apply (get_camera_frame_frame w i buf Hp).
  - intros buf lo hi Hmm.
    pose proof (normalize_image_samples buf lo hi Hmm) as Hs.
    split; [|split; [|split; [|split]]].
    + apply normalize_image_range.
    + rewrite Hs. apply length_map.
    + intros Hne. apply (minMax_attained buf lo hi Hne Hmm).
    + intros Hd n.
      assert (Hlt : lo < hi) by (pose proof (minMax_ordered buf lo hi Hmm); lia).
      rewrite Hs, nth_error_map. split; intros Hn; rewrite Hn; cbn [option_map].
      * now rewrite normalize_sample_min.
      * now rewrite normalize_sample_max.
    + intros He. rewrite Hs. apply map_ext. intros v.
      apply normalize_sample_flat. lia.
Qed.

(** ** Disarming on interrupt *)

(** C6.  The live view with one camera, interrupted during the first poll of
    the wait for the first frame: the camera was armed, the
    [KeyboardInterrupt] leaves [main] through the two [with] blocks, and
    [camera.disarm()] is never called. *)
Theorem interrupt_before_first_frame_skips_disarm (fuel : nat) :
  main world_interrupted_at_start (S fuel) O =
    (video_setup_events "camera0" ++ [EPoll; ECloseCamera; ESdkClose],
     1%nat, Raise KeyboardInterrupt) /\
  filter is_arm (trace_of (main world_interrupted_at_start (S fuel))) = [EArm 2] /\
  filter is_disarm (trace_of (main world_interrupted_at_start (S fuel))) = [].
Proof.
  assert (H : main world_interrupted_at_start (S fuel) O =
              (video_setup_events "camera0" ++ [EPoll; ECloseCamera; ESdkClose],
               1%nat, Raise KeyboardInterrupt)).
  { apply (main_interrupted_waiting world_interrupted_at_start "camera0" []
             eq_refl (S fuel) 0%nat).
    - intros j Hj. lia.
    - reflexivity.
    - lia. }
  unfold trace_of, run. rewrite H. repeat split; reflexivity.
Qed.

(** The same interrupt after the first frame is caught, and the [finally]
    suite disarms the camera. *)
Lemma interrupt_while_displaying_disarms (w : World) (serial : string)
  (rest : list string) (fuel k m : nat) (buf : image) :
  cameras w = serial :: rest ->
  first_frame_at w k buf -> (k < fuel)%nat -> (m < fuel)%nat ->
  (forall j, (j < m)%nat -> polls w (S k + j) <> PInterrupt) ->
  polls w (S k + m) = PInterrupt ->
  result_of (main w fuel) = Ok tt /\
  In EDisarm (trace_of (main w fuel)).
Proof.
  intros Hc Hf Hk Hm Hn Hp. unfold result_of, trace_of, run.
  rewrite (main_interrupted_displaying w serial rest Hc fuel k m buf Hf Hk Hm Hn Hp).
  cbn [fst snd]. split; [reflexivity|].
  do 5 (apply in_or_app; right). apply in_or_app. left. left. reflexivity.
Qed.

(** ** Existence of the color processor *)

Section LiveViewColor.

Local Open Scope nat_scope.

Variable w : World.

Lemma first_frame_wait_no_color_resource (fuel : nat) :
  forall i, filter is_color_resource (fst (fst (first_frame_wait w fuel None i))) = [].
Proof.
  induction fuel as [|fuel IH]; intros i; [reflexivity|].
  destruct (polls w i) as [buf| |] eqn:Hp.
  - rewrite (first_frame_wait_frame w fuel i buf Hp). reflexivity.
  - rewrite (first_frame_wait_null w fuel i Hp). specialize (IH (S i)).
    destruct (first_frame_wait w fuel None (S i)) as [[t j] r].
    cbn [prepend fst] in *. rewrite filter_app, IH. reflexivity.
  - rewrite (first_frame_wait_interrupt w fuel i Hp). reflexivity.
Qed.

Lemma display_loop_no_color_resource (fuel : nat) :
  forall i, filter is_color_resource (fst (fst (display_loop w fuel i))) = [].
Proof.
  induction fuel as [|fuel IH]; intros i; [reflexivity|].
  destruct (polls w i) as [buf| |] eqn:Hp.
  - rewrite display_loop_step by congruence. specialize (IH (S i)).
    destruct (display_loop w fuel (S i)) as [[t j] r].
    cbn [prepend fst] in *. rewrite filter_app, IH.
    unfold display_iteration. rewrite Hp. reflexivity.
  - rewrite display_loop_step by congruence. specialize (IH (S i)).
    destruct (display_loop w fuel (S i)) as [[t j] r].
    cbn [prepend fst] in *. rewrite filter_app, IH.
    unfold display_iteration. rewrite Hp. reflexivity.
  - rewrite (display_loop_interrupt w fuel i Hp). reflexivity.
Qed.

(** The live view never touches the color-processing SDK. *)
Lemma main_no_color_resource (fuel : nat) :
  filter is_color_resource (trace_of (main w fuel)) = [].
Proof.
  unfold trace_of, run, main.
  destruct (cameras w) as [|serial rest]; [reflexivity|].
  cbv beta iota zeta delta
    [with_ try_finally try_except bind emit ret index0 setup_plot].
  pose proof (first_frame_wait_no_color_resource fuel 0) as Hf.
  destruct (first_frame_wait w fuel None 0) as [[t j] r].
  cbn [fst] in Hf.
  destruct r as [img|e|]; cbv beta iota zeta.
  - pose proof (display_loop_no_color_resource fuel j) as Hl.
    destruct (display_loop w fuel j) as [[t' j'] r'].
    cbn [fst] in Hl.
    destruct r' as [a|e|]; [| destruct e |]; cbn [fst];
      repeat (cbn [filter app is_color_resource];
              rewrite ?filter_app, ?Hf, ?Hl); reflexivity.
  - cbn [fst].
    repeat (cbn [filter app is_color_resource]; rewrite ?filter_app, ?Hf);
      reflexivity.
  - cbn [fst].
    repeat (cbn [filter app is_color_resource]; rewrite ?filter_app, ?Hf);
      reflexivity.
Qed.

End LiveViewColor.

Lemma is_color_camera_bayer (w : World) :
  is_color_camera w = true <-> camera_sensor_type w = BAYER.
Proof.
  unfold is_color_camera. destruct (camera_sensor_type w); cbn;
    split; intros H; congruence.
Qed.

Lemma filter_color_resource_setup_events (w : World) (serial : string) :
  filter is_color_resource (setup_events w serial) =
  if is_color_camera w then [ECreateColorSdk; ECreateProcessor] else [].
Proof.
  unfold setup_events.
  destruct (output_exists w), (is_color_camera w); reflexivity.
Qed.

Lemma filter_color_resource_teardown_events (w : World) :
  filter is_color_resource (teardown_events w) =
  if is_color_camera w then [EDisposeProcessor; EDisposeColorSdk] else [].
Proof.
  unfold teardown_events, log_error.
  destruct (is_color_camera w), (processor_dispose_error w),
    (color_sdk_dispose_error w); reflexivity.
Qed.

Lemma precedes_in_prefix (p q : event -> bool) (t rest : trace) :
  precedes p q t = true -> precedes p q (t ++ rest) = true.
Proof.
  unfold precedes. rewrite !position_app.
  destruct (position p t) as [a|]; [|discriminate].
  destruct (position q t) as [b|]; [|discriminate].
  tauto.
Qed.

(** C8, as amended.  In an export session with a camera, the variables
    [mono_to_color_sdk] and [mono_to_color_processor] hold a handle exactly
    when the sensor type is [BAYER].  For a [BAYER] sensor the color SDK
    handle and the color processor are each created exactly once, before the
    software trigger that starts the acquisition, and each disposed exactly
    once; for any other sensor type no color SDK handle and no color
    processor is created or disposed at any point of the run.  The live
    view creates and disposes no color SDK handle and no color processor,
    whatever the sensor type. *)
Theorem color_processor_iff_bayer (w : World) (N : nat) :
  cameras w <> [] ->
  (forall i, exists t sdk proc,
     setup_color w i = (t, i, Ok (sdk, proc)) /\
     (sdk <> None <-> camera_sensor_type w = BAYER) /\
     (proc <> None <-> camera_sensor_type w = BAYER)) /\
  filter is_color_resource (trace_of (export_session w N)) =
    match camera_sensor_type w with
    | BAYER => [ECreateColorSdk; ECreateProcessor;
                EDisposeProcessor; EDisposeColorSdk]
    | _ => []
    end /\
  (camera_sensor_type w = BAYER ->
   precedes is_create_processor is_trigger (trace_of (export_session w N)) = true) /\
  (forall fuel, filter is_color_resource (trace_of (main w fuel)) = []).
Proof.
  intros Hc. split; [|split; [|split]]; [| | |apply main_no_color_resource].
  - intros i. unfold setup_color.
    pose proof (is_color_camera_bayer w) as Hb.
    destruct (is_color_camera w).
    + exists [ECreateColorSdk; ECreateProcessor; ESetOutputFormat BGR_PIXEL],
        (Some MonoToColorProcessorSDK_handle), (Some MonoToColorProcessor_handle).
      split; [reflexivity|].
      split; (split; [intros _; now apply Hb | discriminate]).
    + exists [], None, None. split; [reflexivity|].
      split; (split; [congruence | intros H; apply Hb in H; discriminate]).
  - destruct (cameras w) as [|serial rest] eqn:E; [congruence|].
    destruct (loop_exits_total w N O) as (k & x & Hx).
    unfold trace_of, run.
    rewrite (export_session_run w N serial rest k x E Hx). cbn [fst].
    rewrite !filter_app, filter_color_resource_setup_events,
      filter_iterations, filter_exit_tail,
      filter_color_resource_teardown_events by reflexivity.
    unfold is_color_camera. destruct (camera_sensor_type w); reflexivity.
  - intros Hb. apply is_color_camera_bayer in Hb.
    destruct (cameras w) as [|serial rest] eqn:E; [congruence|].
    destruct (loop_exits_total w N O) as (k & x & Hx).
    unfold trace_of, run.
    rewrite (export_session_run w N serial rest k x E Hx). cbn [fst].
    apply precedes_in_prefix. unfold setup_events. rewrite Hb.
    destruct (output_exists w); reflexivity.
Qed.

(** ** Concrete runs *)

Lemma world_mono_two_frames : loop_exits world_mono 2 O 2 Completed.
Proof.
  split; [|reflexivity].
  intros [|[|j]] Hj; [reflexivity | reflexivity | lia].
Defined.

Lemma world_color_timeout : loop_exits world_color 4 O 2 TimedOut.
Proof.
  split; [|split; [lia | reflexivity]].
  intros [|[|j]] Hj; [reflexivity | reflexivity | lia].
Defined.

Lemma world_late_first_frame : first_frame_at world_late 2 [100; 300; 200; 100].
Proof.
  split; [|reflexivity].
  intros [|[|j]] Hj; [reflexivity | reflexivity | lia].
Defined.

Lemma mono_export_writes_shifted_samples_witness :
  (cameras world_mono <> [] /\
   is_color_camera world_mono = false /\
   8 <= bit_depth world_mono /\
   loop_exits world_mono 2 O 2 Completed) /\
  written (trace_of (export_session world_mono 2)) =
    [[0; 255; 128; 1]; [1; 1; 1; 1]].
Proof.
  assert (H1 : cameras world_mono <> []) by discriminate.
  assert (H2 : is_color_camera world_mono = false) by reflexivity.
  assert (H3 : 8 <= bit_depth world_mono) by (cbn; lia).
  split; [split; [exact H1 | split; [exact H2 | split;
    [exact H3 | exact world_mono_two_frames]]]|].
  exact (proj1 (mono_export_writes_shifted_samples world_mono 2 2 Completed
                  H1 H2 H3 world_mono_two_frames)).
Defined.

Lemma bounded_export_write_count_witness :
  (cameras world_mono <> [] /\
   (forall j, (j < 2)%nat -> is_frame (polls world_mono j) = true) /\
   result_of (export_session world_mono 2) = Ok tt /\
   List.length (written (trace_of (export_session world_mono 2))) = 2%nat) /\
  ((2 < 4)%nat /\
   polls world_mono 2 = PNull /\
   result_of (export_session world_mono 4) = Raise (TimeoutError TIMEOUT_MESSAGE) /\
   List.length (written (trace_of (export_session world_mono 4))) = 2%nat).
Proof.
  assert (H1 : cameras world_mono <> []) by discriminate.
  assert (H2 : forall j, (j < 2)%nat -> is_frame (polls world_mono j) = true).
  { intros [|[|j]] Hj; [reflexivity | reflexivity | lia]. }
  assert (H3 : (2 < 4)%nat) by lia.
  pose proof (proj1 (bounded_export_write_count world_mono 2 H1) H2) as Hfull.
  pose proof (proj2 (bounded_export_write_count world_mono 4 H1) 2%nat H3 H2 eq_refl)
    as Hpart.
  split.
  - split; [exact H1|]. split; [exact H2|].
    split; [exact (proj1 Hfull) | exact (proj1 (proj2 (proj2 Hfull)))].
  - split; [exact H3|]. split; [reflexivity|].
    split; [exact (proj1 Hpart) | exact (proj1 (proj2 (proj2 Hpart)))].
Defined.

Lemma export_teardown_order_witness :
  (cameras world_color <> [] /\ loop_exits world_color 4 O 2 TimedOut) /\
  result_of (export_session world_color 4) = Raise (TimeoutError TIMEOUT_MESSAGE) /\
  filter is_teardown (trace_of (export_session world_color 4)) =
    [EDisarm; ERelease; EDisposeProcessor; EDisposeColorSdk].
Proof.
  assert (H1 : cameras world_color <> []) by discriminate.
  pose proof (proj2 (export_teardown_order world_color 4 H1) 2%nat TimedOut
                world_color_timeout) as H.
  split; [split; [exact H1 | exact world_color_timeout]|].
  split; [exact (proj1 H) | exact (proj1 (proj2 H))].
Defined.

Lemma no_camera_aborts_before_arming_witness :
  cameras world_no_camera = [] /\
  result_of (export_session world_no_camera NUMBER_OF_IMAGES) = Raise IndexError /\
  filter is_arm (trace_of (export_session world_no_camera NUMBER_OF_IMAGES)) = [] /\
  result_of (main world_no_camera 5) = Ok tt /\
  filter is_arm (trace_of (main world_no_camera 5)) = [].
Proof.
  pose proof (no_camera_aborts_before_arming world_no_camera NUMBER_OF_IMAGES 5
                eq_refl) as [He Hv].
  split; [reflexivity|].
  split; [exact (proj1 He)|]. split; [exact (proj1 (proj2 (proj2 He)))|].
  split; [exact (proj1 Hv) | exact (proj1 (proj2 (proj2 Hv)))].
Defined.

(** C8, as stated, fails for the live view: with a [BAYER] camera the session
    is armed and runs to its end, and no color processor is ever created. *)
Lemma live_view_without_color_processor_counterexample :
  cameras world_color <> [] /\
  camera_sensor_type world_color = BAYER /\
  result_of (main world_color 6) = Ok tt /\
  filter is_arm (trace_of (main world_color 6)) = [EArm 2] /\
  filter is_create_processor (trace_of (main world_color 6)) = [].
Proof.
  split; [discriminate|]. repeat split; vm_compute; reflexivity.
Qed.

(** C5, as stated, fails: in this export session of a color camera neither
    color handle is disposed before the camera is disarmed. *)
Lemma color_disposal_before_disarm_counterexample :
  cameras world_color <> [] /\
  is_color_camera world_color = true /\
  disposed_before_disarm (trace_of (export_session world_color 2)) = false /\
  precedes is_dispose_processor is_disarm
    (trace_of (export_session world_color 2)) = false /\
  precedes is_dispose_color_sdk is_disarm
    (trace_of (export_session world_color 2)) = false.
Proof.
  split; [discriminate|]. repeat split; vm_compute; reflexivity.
Qed.

Lemma color_disposal_follows_disarm_witness :
  (cameras world_color <> [] /\ is_color_camera world_color = true) /\
  disposed_after_disarm (trace_of (export_session world_color 2)) = true.
Proof.
  assert (H1 : cameras world_color <> []) by discriminate.
  assert (H2 : is_color_camera world_color = true) by reflexivity.
  split; [split; [exact H1 | exact H2]|].
  exact (proj1 (color_disposal_follows_disarm world_color 2 H1 H2)).
Defined.

Lemma color_processor_iff_bayer_witness :
  (cameras world_color <> [] /\
   filter is_color_resource (trace_of (export_session world_color 2)) =
     [ECreateColorSdk; ECreateProcessor; EDisposeProcessor; EDisposeColorSdk]) /\
  (cameras world_mono <> [] /\
   filter is_color_resource (trace_of (export_session world_mono 2)) = []).
Proof.
  assert (H1 : cameras world_color <> []) by discriminate.
  assert (H2 : cameras world_mono <> []) by discriminate.
  split.
  - split; [exact H1|].
    exact (proj1 (proj2 (color_processor_iff_bayer world_color 2 H1))).
  - split; [exact H2|].
    exact (proj1 (proj2 (color_processor_iff_bayer world_mono 2 H2))).
Defined.

Lemma null_poll_continues_display_loop_witness :
  (polls world_late 3 = PNull /\
   display_loop world_late 3 3%nat =
     prepend [EPoll; EPrint "No frame received."]
       (display_loop world_late 2 4%nat)) /\
  ((forall j, (j < 3)%nat -> polls world_late (3 + j) <> PInterrupt) /\
   snd (display_loop world_late 3 3%nat) = Running /\
   displayed (fst (fst (display_loop world_late 3 3%nat))) = [[0; 0; 0; 0]]).
Proof.
  assert (H1 : polls world_late 3 = PNull) by reflexivity.
  assert (H2 : forall j, (j < 3)%nat -> polls world_late (3 + j) <> PInterrupt).
  { intros [|[|[|j]]] Hj; [discriminate | discriminate | discriminate | lia]. }
  split.
  - split; [exact H1|].
    exact (proj1 (null_poll_continues_display_loop world_late 2 3) H1).
  - split; [exact H2|].
    pose proof (proj2 (null_poll_continues_display_loop world_late 3 3) H2) as H.
    split; [exact (proj1 H) | exact (proj1 (proj2 (proj2 (proj2 H))))].
Defined.

Lemma normalized_display_range_witness :
  (cv2.minMax [100; 300; 200; 100] = (100, 300) /\ 100 <> 300 /\
   nth_error [100; 300; 200; 100] 1 = Some 300) /\
  nth_error (normalize_image [100; 300; 200; 100]) 1 = Some 255 /\
  Forall in_display_range (displayed (trace_of (main world_late 6))).
Proof.
  assert (H1 : cv2.minMax [100; 300; 200; 100] = (100, 300)) by reflexivity.
  assert (H2 : 100 <> 300) by lia.
  assert (H3 : nth_error [100; 300; 200; 100] 1 = Some 300) by reflexivity.
  pose proof (normalized_display_range world_late 6) as [Hd [_ Hn]].
  split; [split; [exact H1 | split; [exact H2 | exact H3]]|].
  split; [|exact Hd].
  exact (proj2 (proj1 (proj2 (proj2 (proj2 (Hn _ _ _ H1)))) H2 1%nat) H3).
Defined.

Lemma first_frame_wait_terminates_iff_witness :
  (first_frame_at world_late 2 [100; 300; 200; 100] /\ (2 < 5)%nat) /\
  first_frame_wait world_late 5 None O =
    (repeat EPoll 3, 3%nat, Ok (normalize_image [100; 300; 200; 100])).
Proof.
  assert (H : (2 < 5)%nat) by lia.
  split; [split; [exact world_late_first_frame | exact H]|].
  exact (proj1 (proj2 (first_frame_wait_terminates_iff world_late))
           5%nat 2%nat _ world_late_first_frame H).
Defined.

(** ** Further properties of the export script *)

Lemma filter_remove_setup_events (w : World) (serial : string) :
  filter is_remove (setup_events w serial) =
  if output_exists w then [ERemoveFile] else [].
Proof.
  unfold setup_events.
  destruct (output_exists w), (is_color_camera w); reflexivity.
Qed.

Lemma filter_remove_teardown_events (w : World) :
  filter is_remove (teardown_events w) = [].
Proof.
  unfold teardown_events, log_error.
  destruct (is_color_camera w), (processor_dispose_error w),
    (color_sdk_dispose_error w); reflexivity.
Qed.

Lemma filter_open_sink_setup_events (w : World) (serial : string) :
  filter is_open_sink (setup_events w serial) =
  [EOpenSink (image_width_pixels w) (image_height_pixels w) (is_color_camera w)].
Proof.
  unfold setup_events.
  destruct (output_exists w), (is_color_camera w); reflexivity.
Qed.

Lemma filter_open_sink_teardown_events (w : World) :
  filter is_open_sink (teardown_events w) = [].
Proof.
  unfold teardown_events, log_error.
  destruct (is_color_camera w), (processor_dispose_error w),
    (color_sdk_dispose_error w); reflexivity.
Qed.

(** X1.  The export script removes a previous output file exactly when one
    exists, once, and as its very first action.  With a camera the sink is
    then opened exactly once, after the removal; without a camera the file
    has been removed all the same and no sink is opened. *)
Theorem previous_output_removed_first (w : World) (N : nat) :
  filter is_remove (trace_of (export_session w N)) =
    (if output_exists w then [ERemoveFile] else []) /\
  (output_exists w = true ->
   hd_error (trace_of (export_session w N)) = Some ERemoveFile) /\
  (cameras w = [] ->
   filter is_open_sink (trace_of (export_session w N)) = []) /\
  (cameras w <> [] ->
   filter is_open_sink (trace_of (export_session w N)) =
     [EOpenSink (image_width_pixels w) (image_height_pixels w)
        (SENSOR_TYPE_eqb (camera_sensor_type w) BAYER)] /\
   (output_exists w = true ->
    precedes is_remove is_open_sink (trace_of (export_session w N)) = true)).
Proof.
  destruct (cameras w) as [|serial rest] eqn:E.
  - unfold trace_of, run. rewrite (export_session_no_camera w N E). cbn [fst].
    destruct (output_exists w); repeat split; try reflexivity; congruence.
  - destruct (loop_exits_total w N O) as (k & x & Hx).
    unfold trace_of, run.
    rewrite (export_session_run w N serial rest k x E Hx). cbn [fst].
    split; [|split; [|split]].
    + rewrite !filter_app, filter_remove_setup_events, filter_iterations,
        filter_exit_tail, filter_remove_teardown_events by reflexivity.
      destruct (output_exists w); reflexivity.
    + intros Ho. unfold setup_events. rewrite Ho. reflexivity.
    + discriminate.
    + intros _. split.
      * rewrite !filter_app, filter_open_sink_setup_events, filter_iterations,
          filter_exit_tail, filter_open_sink_teardown_events by reflexivity.
        reflexivity.
      * intros Ho. apply precedes_in_prefix. unfold setup_events. rewrite Ho.
        destruct (is_color_camera w); reflexivity.
Qed.

(** X2.  In an export session of a [BAYER] camera every image written to the
    sink is the result of [transform_to_24] on the polled buffer with the
    camera's width and height, in poll order; no sample is shifted. *)
Theorem color_export_writes_transformed_frames
  (w : World) (N k : nat) (x : loop_exit) :
  cameras w <> [] ->
  camera_sensor_type w = BAYER ->
  loop_exits w N O k x ->
  written (trace_of (export_session w N)) =
    map (fun j => transform_to_24 w (buffer_at w j)
                    (image_width_pixels w) (image_height_pixels w))
      (seq O k).
Proof.
  intros Hc Hb Hx. rewrite (written_export_session w N k x Hc Hx).
  apply is_color_camera_bayer in Hb. unfold converted. rewrite Hb.
  reflexivity.
Qed.

(** X3.  An export session with a camera never writes more than [N] images
    and never polls more than [N] times.  Every write follows a poll of its
    own: the polls are the writes, plus one poll exactly when the script
    does not return normally; and the script returns normally exactly when
    [N] images were written. *)
Theorem export_never_exceeds_target (w : World) (N : nat) :
  cameras w <> [] ->
  (List.length (written (trace_of (export_session w N))) <= N)%nat /\
  (List.length (filter is_poll (trace_of (export_session w N))) <= N)%nat /\
  (result_of (export_session w N) = Ok tt <->
   List.length (written (trace_of (export_session w N))) = N) /\
  (result_of (export_session w N) = Ok tt ->
   List.length (filter is_poll (trace_of (export_session w N))) =
   List.length (written (trace_of (export_session w N)))) /\
  (result_of (export_session w N) <> Ok tt ->
   List.length (filter is_poll (trace_of (export_session w N))) =
   S (List.length (written (trace_of (export_session w N))))).
Proof.
  intros Hc. destruct (loop_exits_total w N O) as (k & x & Hx).
  pose proof (written_export_session w N k x Hc Hx) as Hw.
  pose proof (polls_export_session w N k x Hc Hx) as Hp.
  assert (Hr : result_of (export_session w N) = exit_result x).
  { destruct (cameras w) as [|serial rest] eqn:E; [congruence|].
    unfold result_of, run.
    now rewrite (export_session_run w N serial rest k x E Hx). }
  rewrite Hw, Hp, Hr, length_map, length_seq.
  destruct Hx as [_ Hx].
  destruct x; cbn [exit_result exit_tail List.length].
  - subst k. repeat split; try lia; try reflexivity; congruence.
  - destruct Hx as [Hlt _].
    repeat split; try lia; try discriminate; intros H; lia.
  - destruct Hx as [Hlt _].
    repeat split; try lia; try discriminate; intros H; lia.
Qed.

(** X4.  A failure of a disposal is logged and goes no further.  In an
    export session of a color camera the end of the trace is: disarm,
    release, the disposal of the processor, its message when it raised, the
    disposal of the color SDK handle, which is attempted whether or not the
    first disposal raised, its message when it raised, and the exits of the
    two [with] blocks.  The result of the script is the one of the loop:
    a disposal error neither replaces a pending exception nor makes a
    completed run fail. *)
Theorem disposal_errors_are_logged_only
  (w : World) (N k : nat) (x : loop_exit) :
  cameras w <> [] ->
  is_color_camera w = true ->
  loop_exits w N O k x ->
  result_of (export_session w N) = exit_result x /\
  exists before,
    filter is_teardown before = [] /\
    trace_of (export_session w N) =
      before ++
      [EDisarm; ERelease; EDisposeProcessor] ++
      match processor_dispose_error w with
      | Some msg =>
          [EPrint ("Unable to dispose mono to color processor: " ++ msg)%string]
      | None => []
      end ++
      [EDisposeColorSdk] ++
      match color_sdk_dispose_error w with
      | Some msg =>
          [EPrint ("Unable to dispose mono to color sdk: " ++ msg)%string]
      | None => []
      end ++
      [ECloseCamera; ESdkClose].
Proof.
  intros Hc Hcol Hx.
  destruct (cameras w) as [|serial rest] eqn:E; [congruence|].
  unfold result_of, trace_of, run.
  rewrite (export_session_run w N serial rest k x E Hx). cbn [fst snd].
  split; [reflexivity|].
  exists (setup_events w serial ++ iterations w O k ++ exit_tail x).
  split; [apply filter_teardown_before|].
  unfold teardown_events, log_error. rewrite Hcol.
  destruct (processor_dispose_error w), (color_sdk_dispose_error w);
    cbn [app]; rewrite <- !app_assoc; reflexivity.
Qed.

(** X5.  The export script does not catch the interrupt.  When it arrives in
    the poll that follows [k < N] frames, the script ends with
    [KeyboardInterrupt] after [k + 1] polls, the [k] frames have been
    written, and the [finally] suite has disarmed the camera and released
    the sink, once each. *)
Theorem export_interrupt_propagates (w : World) (N k : nat) :
  cameras w <> [] ->
  (k < N)%nat ->
  (forall j, (j < k)%nat -> is_frame (polls w j) = true) ->
  polls w k = PInterrupt ->
  result_of (export_session w N) = Raise KeyboardInterrupt /\
  written (trace_of (export_session w N)) =
    map (fun j => converted w (buffer_at w j)) (seq O k) /\
  List.length (filter is_poll (trace_of (export_session w N))) = S k /\
  filter is_disarm (trace_of (export_session w N)) = [EDisarm] /\
  filter is_release (trace_of (export_session w N)) = [ERelease].
Proof.
  intros Hc Hk Hfr Hp.
  assert (Hx : loop_exits w N O k Interrupted)
    by (split; [exact Hfr | split; assumption]).
  pose proof (written_export_session w N k Interrupted Hc Hx) as Hw.
  pose proof (polls_export_session w N k Interrupted Hc Hx) as Hpo.
  destruct (cameras w) as [|serial rest] eqn:E; [congruence|].
  split; [|split; [exact Hw|split; [rewrite Hpo; cbn; lia|]]].
  - unfold result_of, run.
    now rewrite (export_session_run w N serial rest k Interrupted E Hx).
  - unfold trace_of, run.
    rewrite (export_session_run w N serial rest k Interrupted E Hx).
    cbn [fst exit_tail].
    rewrite !filter_app, !(filter_iterations w _ O k) by reflexivity.
    unfold setup_events, teardown_events, log_error.
    destruct (output_exists w), (is_color_camera w),
      (processor_dispose_error w), (color_sdk_dispose_error w);
      split; reflexivity.
Qed.

Lemma filter_lifecycle_setup_events (w : World) (serial : string) :
  filter is_lifecycle (setup_events w serial) = [ESdkOpen; EOpenCamera serial].
Proof.
  unfold setup_events.
  destruct (output_exists w), (is_color_camera w); reflexivity.
Qed.

Lemma filter_lifecycle_teardown_events (w : World) :
  filter is_lifecycle (teardown_events w) = [].
Proof.
  unfold teardown_events, log_error.
  destruct (is_color_camera w), (processor_dispose_error w),
    (color_sdk_dispose_error w); reflexivity.
Qed.

(** X6.  The two [with] blocks of the export script are entered and left
    in nested order on every run: the camera SDK is opened once and closed
    once, as the last action of the script; the camera that is opened is
    the first of the discovered ones, and it is closed once, before the
    SDK.  When no camera is found, only the SDK is opened and closed. *)
Theorem export_closes_what_it_opened (w : World) (N : nat) :
  filter is_lifecycle (trace_of (export_session w N)) =
    match cameras w with
    | [] => [ESdkOpen; ESdkClose]
    | serial :: _ => [ESdkOpen; EOpenCamera serial; ECloseCamera; ESdkClose]
    end /\
  last (trace_of (export_session w N)) EPoll = ESdkClose.
Proof.
  destruct (cameras w) as [|serial rest] eqn:E.
  - unfold trace_of, run. rewrite (export_session_no_camera w N E). cbn [fst].
    destruct (output_exists w); split; reflexivity.
  - destruct (loop_exits_total w N O) as (k & x & Hx).
    unfold trace_of, run.
    rewrite (export_session_run w N serial rest k x E Hx). cbn [fst].
    split.
    + rewrite !filter_app, filter_lifecycle_setup_events, filter_iterations,
        filter_exit_tail, filter_lifecycle_teardown_events by reflexivity.
      reflexivity.
    + rewrite !app_assoc.
      change [ECloseCamera; ESdkClose] with ([ECloseCamera] ++ [ESdkClose]).
      rewrite app_assoc. apply last_last.
Qed.

(** X7.  The shift to 8 bits keeps the order of the samples, leaves the
    samples of an 8-bit camera as they are, and does not clamp: a sample
    beyond the range of the bit depth gives a value beyond 255. *)
Theorem scale_to_8bpp_monotone_unclamped (B V1 V2 : Z) :
  8 <= B ->
  (V1 <= V2 -> scale_to_8bpp B V1 <= scale_to_8bpp B V2) /\
  scale_to_8bpp 8 V1 = V1 /\
  (2 ^ B <= V1 -> 256 <= scale_to_8bpp B V1).
Proof.
  intros HB.
  assert (Hp : 0 < 2 ^ (B - 8)) by (apply Z.pow_pos_nonneg; lia).
  split; [|split].
  - intros HV. rewrite !scale_to_8bpp_div by assumption.
    apply Z.div_le_mono; assumption.
  - unfold scale_to_8bpp. cbn [Z.sub Z.add Z.opp Z.pos_sub]. apply Z.shiftr_0_r.
  - intros HV. rewrite scale_to_8bpp_div by assumption.
    apply Z.div_le_lower_bound; [assumption|].
    rewrite Z.mul_comm, <- pow2_split; assumption.
Qed.

Section Locality.

Variable w : World.
Variable p : nat -> poll_outcome.
Variable N : nat.
Hypothesis agree : forall j, (j < N)%nat -> p j = polls w j.

Lemma loop_exits_with_polls (k : nat) (x : loop_exit) :
  loop_exits w N O k x -> loop_exits (with_polls w p) N O k x.
Proof.
  intros [Hfr Hx].
  assert (Hk : (k <= N)%nat) by (destruct x; lia).
  split.
  - intros j Hj. cbn [polls with_polls Nat.add]. rewrite agree by lia.
    apply (Hfr j Hj).
  - destruct x; [assumption | |];
      destruct Hx as [Hlt Hp]; (split; [assumption|]);
      cbn [polls with_polls Nat.add] in *; rewrite agree by lia; assumption.
Qed.

Lemma iterations_with_polls_from (k : nat) :
  forall i, (i + k <= N)%nat ->
  iterations (with_polls w p) i k = iterations w i k.
Proof.
  unfold iterations.
  induction k as [|k IH]; intros i Hk; [reflexivity|].
  cbn [seq flat_map]. rewrite (IH (S i)) by lia.
  unfold buffer_at at 1. cbn [polls with_polls]. rewrite agree by lia.
  reflexivity.
Qed.

Lemma iterations_with_polls (k : nat) :
  (k <= N)%nat -> iterations (with_polls w p) O k = iterations w O k.
Proof. intros Hk. apply iterations_with_polls_from. lia. Qed.

End Locality.

(** X8.  An export run looks at the first [N] poll outcomes only: two worlds
    that differ in later poll outcomes alone give the same trace, the same
    number of polls and the same result. *)
Theorem export_depends_on_first_polls_only
  (w : World) (p : nat -> poll_outcome) (N : nat) :
  (forall j, (j < N)%nat -> p j = polls w j) ->
  export_session (with_polls w p) N O = export_session w N O.
Proof.
  intros Hag. destruct (cameras w) as [|serial rest] eqn:E.
  - rewrite (export_session_no_camera w N E).
    rewrite (export_session_no_camera (with_polls w p) N E). reflexivity.
  - destruct (loop_exits_total w N O) as (k & x & Hx).
    assert (Hk : (k <= N)%nat) by (destruct Hx as [_ Hx]; destruct x; lia).
    rewrite (export_session_run w N serial rest k x E Hx).
    rewrite (export_session_run (with_polls w p) N serial rest k x E
               (loop_exits_with_polls w p N Hag k x Hx)).
    rewrite (iterations_with_polls w p N Hag k Hk). reflexivity.
Qed.

(** ** Further properties of the live view *)

Section LiveViewCases.

Local Open Scope nat_scope.

Variable w : World.

Lemma wait_scan (fuel : nat) :
  (forall j, j < fuel -> polls w j = PNull) \/
  (exists k, k < fuel /\ (forall j, j < k -> polls w j = PNull) /\
             polls w k <> PNull).
Proof.
  induction fuel as [|fuel [IH|(k & Hk & Hn & Hp)]].
  - left. intros j Hj. lia.
  - destruct (polls w fuel) eqn:E.
    + right. exists fuel. repeat split; [lia | assumption | congruence].
    + left. intros j Hj.
      destruct (Nat.eq_dec j fuel) as [->|Hne]; [assumption | apply IH; lia].
    + right. exists fuel. repeat split; [lia | assumption | congruence].
  - right. exists k. repeat split; [lia | assumption | assumption].
Qed.

Lemma interrupt_scan (i fuel : nat) :
  (forall j, j < fuel -> polls w (i + j) <> PInterrupt) \/
  (exists m, m < fuel /\ (forall j, j < m -> polls w (i + j) <> PInterrupt) /\
             polls w (i + m) = PInterrupt).
Proof.
  induction fuel as [|fuel [IH|(m & Hm & Hn & Hp)]].
  - left. intros j Hj. lia.
  - destruct (polls w (i + fuel)) eqn:E.
    + left. intros j Hj.
      destruct (Nat.eq_dec j fuel) as [->|Hne]; [congruence | apply IH; lia].
    + left. intros j Hj.
      destruct (Nat.eq_dec j fuel) as [->|Hne]; [congruence | apply IH; lia].
    + right. exists fuel. repeat split; [lia | assumption | assumption].
  - right. exists m. repeat split; [lia | assumption | assumption].
Qed.

(** The four states in which a run of [main] with a camera can be after
    [fuel] iterations of each loop. *)
Lemma main_cases (serial : string) (rest : list string) (fuel : nat) :
  cameras w = serial :: rest ->
  ((forall j, j < fuel -> polls w j = PNull) /\
   main w fuel 0 =
     (video_setup_events serial ++ repeat EPoll fuel, fuel, Running)) \/
  (exists k,
     k < fuel /\ (forall j, j < k -> polls w j = PNull) /\
     polls w k = PInterrupt /\
     main w fuel 0 =
       (video_setup_events serial ++ repeat EPoll (S k) ++
        [ECloseCamera; ESdkClose], S k, Raise KeyboardInterrupt)) \/
  (exists k buf,
     first_frame_at w k buf /\ k < fuel /\
     (forall j, j < fuel -> polls w (S k + j) <> PInterrupt) /\
     main w fuel 0 =
       (video_setup_events serial ++ repeat EPoll (S k) ++
        plot_events (normalize_image buf) ++ display_events w (S k) fuel,
        S k + fuel, Running)) \/
  (exists k buf m,
     first_frame_at w k buf /\ k < fuel /\ m < fuel /\
     (forall j, j < m -> polls w (S k + j) <> PInterrupt) /\
     polls w (S k + m) = PInterrupt /\
     main w fuel 0 =
       (video_setup_events serial ++ repeat EPoll (S k) ++
        plot_events (normalize_image buf) ++ display_events w (S k) m ++
        [EPoll; EPrint "Interrupted by user."] ++ video_teardown_events ++
        [ECloseCamera; ESdkClose],
        S (S k + m), Ok tt)).
Proof.
  intros Hc. destruct (wait_scan fuel) as [Hn|(k & Hk & Hn & Hp)].
  - left. split; [exact Hn|]. apply (main_waiting w serial rest Hc fuel Hn).
  - right. destruct (polls w k) as [buf| |] eqn:E; [|congruence|].
    + right.
      assert (Hf : first_frame_at w k buf) by (split; assumption).
      destruct (interrupt_scan (S k) fuel) as [Hni|(m & Hm & Hni & Hpi)].
      * left. exists k, buf. repeat split; try assumption.
        apply (main_displaying w serial rest Hc fuel k buf Hf Hk Hni).
      * right. exists k, buf, m. repeat split; try assumption.
        apply (main_interrupted_displaying w serial rest Hc fuel k m buf
                 Hf Hk Hm Hni Hpi).
    + left. exists k. repeat split; try assumption.
      apply (main_interrupted_waiting w serial rest Hc fuel k Hn E Hk).
Qed.

Lemma filter_repeat_poll (p : event -> bool) (k : nat) :
  p EPoll = false -> filter p (repeat EPoll k) = [].
Proof.
  intros Hp. induction k as [|k IH]; [reflexivity|].
  cbn [repeat filter]. rewrite Hp. exact IH.
Qed.

Lemma polls_repeat_poll (k : nat) :
  List.length (filter is_poll (repeat EPoll k)) = k.
Proof. induction k as [|k IH]; [reflexivity|]. cbn. now rewrite IH. Qed.

Lemma displayed_repeat_poll (k : nat) : displayed (repeat EPoll k) = [].
Proof. induction k as [|k IH]; [reflexivity|]. exact IH. Qed.

(** A filter that keeps none of the events of a display iteration keeps
    nothing of the display loop. *)
Lemma filter_display_events (p : event -> bool) (i k : nat) :
  p EPoll = false -> (forall s, p (EPrint s) = false) ->
  (forall im, p (ESetData im) = false) ->
  p EDraw = false -> p EFlushEvents = false ->
  filter p (display_events w i k) = [].
Proof.
  intros H1 H2 H3 H4 H5. unfold display_events. revert i.
  induction k as [|k IH]; intros i; [reflexivity|].
  cbn [seq flat_map]. rewrite filter_app, IH.
  unfold display_iteration. destruct (polls w i); cbn [filter];
    rewrite ?H1, ?H2, ?H3, ?H4, ?H5; reflexivity.
Qed.

Lemma polls_display_events (i k : nat) :
  List.length (filter is_poll (display_events w i k)) = k.
Proof.
  unfold display_events. revert i.
  induction k as [|k IH]; intros i; [reflexivity|].
  cbn [seq flat_map]. rewrite filter_app, length_app, IH.
  unfold display_iteration. destruct (polls w i); reflexivity.
Qed.

Lemma frames_between_app (i a b : nat) :
  frames_between w i (a + b) =
  frames_between w i a ++ frames_between w (i + a) b.
Proof.
  unfold frames_between. rewrite seq_app, flat_map_app. reflexivity.
Qed.

Lemma frames_between_nulls (i k : nat) :
  (forall j, j < k -> polls w (i + j) = PNull) -> frames_between w i k = [].
Proof.
  unfold frames_between. revert i.
  induction k as [|k IH]; intros i Hn; [reflexivity|].
  cbn [seq flat_map].
  rewrite IH.
  - specialize (Hn 0). rewrite Nat.add_0_r in Hn. rewrite Hn by lia.
    reflexivity.
  - intros j Hj. replace (S i + j) with (i + S j) by lia. apply Hn. lia.
Qed.

Lemma frames_between_first (k : nat) (buf : image) :
  first_frame_at w k buf ->
  frames_between w 0 (S k) = [normalize_image buf].
Proof.
  intros [Hn Hp]. replace (S k) with (k + 1) by lia.
  rewrite frames_between_app, frames_between_nulls by exact Hn.
  unfold frames_between. cbn [Nat.add seq flat_map app]. rewrite Hp.
  reflexivity.
Qed.

End LiveViewCases.

Lemma last_two (t : trace) (a b d : event) : last (t ++ [a; b]) d = b.
Proof.
  change [a; b] with ([a] ++ [b]). rewrite app_assoc. apply last_last.
Qed.

Ltac live_view_filters :=
  unfold video_setup_events, plot_events, video_teardown_events;
  repeat (cbn [filter app is_lifecycle is_disarm is_sink is_poll
               is_set_data is_draw is_flush_events List.length];
          rewrite ?filter_app, ?length_app, ?filter_repeat_poll,
            ?filter_display_events by reflexivity);
  try reflexivity.

(** X9.  The two [with] blocks of the live view are left in nested order
    whenever [main] stops, by return or by exception: the camera that was
    opened, the first discovered one, is closed once and the camera SDK is
    closed once, last of all; with no camera only the SDK is opened and
    closed.  As long as [main] runs, the camera and the SDK stay open. *)
Theorem live_view_closes_what_it_opened (w : World) (fuel : nat) :
  (result_of (main w fuel) <> Running ->
   filter is_lifecycle (trace_of (main w fuel)) =
     match cameras w with
     | [] => [ESdkOpen; ESdkClose]
     | serial :: _ => [ESdkOpen; EOpenCamera serial; ECloseCamera; ESdkClose]
     end /\
   last (trace_of (main w fuel)) EPoll = ESdkClose) /\
  (result_of (main w fuel) = Running ->
   exists serial rest,
     cameras w = serial :: rest /\
     filter is_lifecycle (trace_of (main w fuel)) = [ESdkOpen; EOpenCamera serial]).
Proof.
  unfold result_of, trace_of, run.
  destruct (cameras w) as [|serial rest] eqn:E.
  - rewrite (main_no_camera w fuel E). cbn [fst snd].
    split; [intros _; split; reflexivity | discriminate].
  - destruct (main_cases w serial rest fuel E)
      as [[Hw H]|[(k & Hk & Hw & Hi & H)|[(k & buf & Hf & Hk & Hn & H)|
          (k & buf & m & Hf & Hk & Hm & Hn & Hp & H)]]];
      rewrite H; cbn [fst snd].
    + split; [congruence|]. intros _. exists serial, rest.
      split; [reflexivity|]. live_view_filters.
    + split; [|discriminate]. intros _. split; [live_view_filters|].
      rewrite app_assoc. apply last_two.
    + split; [congruence|]. intros _. exists serial, rest.
      split; [reflexivity|]. live_view_filters.
    + split; [|discriminate]. intros _. split; [live_view_filters|].
      rewrite !app_assoc. apply last_two.
Qed.

(** X10.  With a camera, the live view stops only through the interrupt:
    [main] is still running after any number of iterations when no poll is
    ever interrupted, it stops after enough iterations when some poll is,
    and it then either returns normally or ends with
    [KeyboardInterrupt]. *)
Theorem live_view_runs_until_interrupted (w : World) :
  cameras w <> [] ->
  ((exists fuel, result_of (main w fuel) <> Running) <->
   (exists j, polls w j = PInterrupt)) /\
  (forall fuel,
     result_of (main w fuel) = Running \/
     result_of (main w fuel) = Ok tt \/
     result_of (main w fuel) = Raise KeyboardInterrupt).
Proof.
  intros Hc. destruct (cameras w) as [|serial rest] eqn:E; [congruence|].
  unfold result_of, run. split; [split|].
  - intros (fuel & Hr).
    destruct (main_cases w serial rest fuel E)
      as [[Hw H]|[(k & Hk & Hw & Hi & H)|[(k & buf & Hf & Hk & Hn & H)|
          (k & buf & m & Hf & Hk & Hm & Hn & Hp & H)]]];
      rewrite H in Hr; cbn [snd] in Hr; try congruence.
    + exists k. assumption.
    + exists (S k + m)%nat. assumption.
  - intros (j & Hj). exists (S j).
    destruct (main_cases w serial rest (S j) E)
      as [[Hw H]|[(k & Hk & Hw & Hi & H)|[(k & buf & Hf & Hk & Hn & H)|
          (k & buf & m & Hf & Hk & Hm & Hn & Hp & H)]]].
    + exfalso. rewrite (Hw j (Nat.lt_succ_diag_r j)) in Hj. discriminate.
    + rewrite H. discriminate.
    + exfalso. destruct Hf as [Hnull Hp].
      destruct (Nat.lt_trichotomy j k) as [Hlt|[Heq|Hgt]].
      * rewrite (Hnull j Hlt) in Hj. discriminate.
      * subst j. congruence.
      * apply (Hn (j - S k)%nat); [lia|].
        replace (S k + (j - S k))%nat with j by lia. assumption.
    + rewrite H. discriminate.
  - intros fuel.
    destruct (main_cases w serial rest fuel E)
      as [[Hw H]|[(k & Hk & Hw & Hi & H)|[(k & buf & Hf & Hk & Hn & H)|
          (k & buf & m & Hf & Hk & Hm & Hn & Hp & H)]]];
      rewrite H; cbn [snd]; tauto.
Qed.

(** X11.  With a camera, [main] returns normally only after an interrupt
    caught in the display loop, and then it ends with: the interrupted
    poll, the print of "Interrupted by user.", the disarming of the camera,
    the print of "Camera disarmed. Exiting...", the closing of the plot and
    the exits of the two [with] blocks; the display had been initialised
    and the camera is disarmed this once.  When [main] has not returned
    normally, it has not called [camera.disarm()]. *)
Theorem live_view_disarms_on_caught_interrupt (w : World) (fuel : nat) :
  cameras w <> [] ->
  (result_of (main w fuel) = Ok tt ->
   exists before,
     trace_of (main w fuel) =
       before ++
       [EPoll; EPrint "Interrupted by user."; EDisarm;
        EPrint "Camera disarmed. Exiting..."; EPlot "ioff"; EPlot "close";
        ECloseCamera; ESdkClose] /\
     filter is_disarm before = [] /\
     exists first_frame, In (EImshow first_frame) before) /\
  (result_of (main w fuel) <> Ok tt ->
   filter is_disarm (trace_of (main w fuel)) = []).
Proof.
  intros Hc. destruct (cameras w) as [|serial rest] eqn:E; [congruence|].
  unfold result_of, trace_of, run.
  destruct (main_cases w serial rest fuel E)
    as [[Hw H]|[(k & Hk & Hw & Hi & H)|[(k & buf & Hf & Hk & Hn & H)|
        (k & buf & m & Hf & Hk & Hm & Hn & Hp & H)]]];
    rewrite H; cbn [fst snd].
  - split; [discriminate|]. intros _. live_view_filters.
  - split; [discriminate|]. intros _. live_view_filters.
  - split; [discriminate|]. intros _. live_view_filters.
  - split; [|congruence]. intros _.
    exists (video_setup_events serial ++ repeat EPoll (S k) ++
            plot_events (normalize_image buf) ++ display_events w (S k) m).
    split; [|split].
    + unfold video_teardown_events. rewrite <- !app_assoc. reflexivity.
    + live_view_filters.
    + exists (normalize_image buf).
      apply in_or_app. right. apply in_or_app. right.
      apply in_or_app. left. unfold plot_events. cbn. tauto.
Qed.

(** X12.  With a camera, [main] ends with an exception only when the
    interrupt arrives during the wait for the first frame, after null polls
    only.  The exception is the [KeyboardInterrupt] itself, the polls made
    are the null ones and the interrupted one, and the display has not been
    touched. *)
Theorem interrupt_while_waiting_propagates (w : World) (fuel : nat) (e : exn) :
  cameras w <> [] ->
  result_of (main w fuel) = Raise e ->
  e = KeyboardInterrupt /\
  filter is_sink (trace_of (main w fuel)) = [] /\
  exists k,
    (forall j, (j < k)%nat -> polls w j = PNull) /\
    polls w k = PInterrupt /\
    List.length (filter is_poll (trace_of (main w fuel))) = S k.
Proof.
  intros Hc. destruct (cameras w) as [|serial rest] eqn:E; [congruence|].
  unfold result_of, trace_of, run.
  destruct (main_cases w serial rest fuel E)
    as [[Hw H]|[(k & Hk & Hw & Hi & H)|[(k & buf & Hf & Hk & Hn & H)|
        (k & buf & m & Hf & Hk & Hm & Hn & Hp & H)]]];
    rewrite H; cbn [fst snd]; try discriminate.
  intros He. injection He as <-. split; [reflexivity|].
  split; [live_view_filters|].
  exists k. split; [assumption|]. split; [assumption|].
  rewrite !filter_app, !length_app, polls_repeat_poll.
  cbn [video_setup_events filter is_poll List.length]. lia.
Qed.

Ltac count_polls n :=
  match goal with
  | |- _ = frames_between _ _ ?len =>
      replace len with n
        by (repeat (cbn [video_setup_events plot_events video_teardown_events
                         filter is_poll List.length app];
                    rewrite ?filter_app, ?length_app, ?polls_repeat_poll,
                      ?polls_display_events);
            lia)
  end.

(** X13.  The live view shows every frame that its polls return, once and
    in order: at any point of a run, the images handed to the display
    ([imshow] for the first, [set_data] for the others) are the normalised
    buffers of all polls made so far that returned a frame. *)
Theorem live_view_shows_every_frame (w : World) (fuel : nat) :
  displayed (trace_of (main w fuel)) =
  frames_between w O
    (List.length (filter is_poll (trace_of (main w fuel)))).
Proof.
  unfold trace_of, run.
  destruct (cameras w) as [|serial rest] eqn:E.
  - rewrite (main_no_camera w fuel E). reflexivity.
  - destruct (main_cases w serial rest fuel E)
      as [[Hw H]|[(k & Hk & Hw & Hi & H)|[(k & buf & Hf & Hk & Hn & H)|
          (k & buf & m & Hf & Hk & Hm & Hn & Hp & H)]]];
      rewrite H; cbn [fst];
      rewrite !displayed_app, ?displayed_repeat_poll,
        ?displayed_display_events;
      cbn [video_setup_events plot_events video_teardown_events displayed
           flat_map app].
    + count_polls fuel. symmetry. apply frames_between_nulls. exact Hw.
    + count_polls (k + 1)%nat.
      rewrite frames_between_app, (frames_between_nulls w O k Hw).
      unfold frames_between. cbn [Nat.add seq flat_map app]. rewrite Hi.
      reflexivity.
    + count_polls (S k + fuel)%nat.
      rewrite frames_between_app, (frames_between_first w k buf Hf).
      reflexivity.
    + count_polls (S k + (m + 1))%nat.
      rewrite !frames_between_app, (frames_between_first w k buf Hf).
      replace (frames_between w (0 + S k + m) 1) with (@nil image).
      * rewrite !app_nil_r. reflexivity.
      * replace (0 + S k + m)%nat with (S k + m)%nat by lia.
        unfold frames_between. cbn [seq flat_map]. rewrite Hp.
        reflexivity.
Qed.

Lemma updates_display_events (w : World) (p : event -> bool) (i k : nat) :
  p EPoll = false -> (forall s, p (EPrint s) = false) ->
  (forall im, List.length (filter p [ESetData im; EDraw; EFlushEvents]) = 1%nat) ->
  List.length (filter p (display_events w i k)) =
  List.length (frames_between w i k).
Proof.
  intros H1 H2 H3. unfold display_events, frames_between. revert i.
  induction k as [|k IH]; intros i; [reflexivity|].
  cbn [seq flat_map]. rewrite filter_app, !length_app, IH. f_equal.
  unfold display_iteration. destruct (polls w i) as [buf| |].
  - change [EPoll; ESetData (normalize_image buf); EDraw; EFlushEvents]
      with ([EPoll] ++ [ESetData (normalize_image buf); EDraw; EFlushEvents]).
    rewrite filter_app, length_app, H3. cbn [filter]. rewrite H1. reflexivity.
  - cbn [filter]. rewrite H1, H2. reflexivity.
  - cbn [filter]. rewrite H1. reflexivity.
Qed.

(** X14.  In the live view every update of the image is drawn and flushed:
    [set_data], [draw] and [flush_events] have been called equally often at
    any point of a run, and the images shown are the first frame, given to
    [imshow], and one image per [set_data]. *)
Theorem every_update_is_drawn_and_flushed (w : World) (fuel : nat) :
  List.length (filter is_draw (trace_of (main w fuel))) =
    List.length (filter is_set_data (trace_of (main w fuel))) /\
  List.length (filter is_flush_events (trace_of (main w fuel))) =
    List.length (filter is_set_data (trace_of (main w fuel))) /\
  List.length (filter is_set_data (trace_of (main w fuel))) =
    Nat.pred (List.length (displayed (trace_of (main w fuel)))).
Proof.
  unfold trace_of, run.
  destruct (cameras w) as [|serial rest] eqn:E.
  - rewrite (main_no_camera w fuel E). repeat split; reflexivity.
  - destruct (main_cases w serial rest fuel E)
      as [[Hw H]|[(k & Hk & Hw & Hi & H)|[(k & buf & Hf & Hk & Hn & H)|
          (k & buf & m & Hf & Hk & Hm & Hn & Hp & H)]]];
      rewrite H; cbn [fst];
      rewrite !displayed_app, ?displayed_repeat_poll,
        ?displayed_display_events;
      repeat (cbn [video_setup_events plot_events video_teardown_events
                   displayed flat_map filter is_draw is_set_data
                   is_flush_events List.length app Nat.pred];
              rewrite ?filter_app, ?length_app, ?filter_repeat_poll,
                ?(updates_display_events w is_draw),
                ?(updates_display_events w is_set_data),
                ?(updates_display_events w is_flush_events) by reflexivity);
      repeat split; lia.
Qed.

Ltac live_view_trigger :=
  unfold plot_events, video_teardown_events;
  repeat (cbn [filter app is_arm is_trigger];
          rewrite ?filter_app, ?filter_repeat_poll,
            ?filter_display_events by reflexivity);
  reflexivity.

(** X15.  In both scripts a session with a camera arms the camera once, with
    two frame buffers, and then issues one software trigger: before the
    trigger there is the arming and no poll, after it no further arming and
    no further trigger, so that all polls of the session are served by this
    one trigger. *)
Theorem one_arm_one_trigger (w : World) (N fuel : nat) :
  cameras w <> [] ->
  (exists before after,
     trace_of (export_session w N) = before ++ ETrigger :: after /\
     filter is_arm before = [EArm 2] /\ filter is_poll before = [] /\
     filter is_arm after = [] /\ filter is_trigger after = []) /\
  (exists before after,
     trace_of (main w fuel) = before ++ ETrigger :: after /\
     filter is_arm before = [EArm 2] /\ filter is_poll before = [] /\
     filter is_arm after = [] /\ filter is_trigger after = []).
Proof.
  intros Hc. destruct (cameras w) as [|serial rest] eqn:E; [congruence|].
  split.
  - destruct (loop_exits_total w N O) as (k & x & Hx).
    unfold trace_of, run.
    rewrite (export_session_run w N serial rest k x E Hx). cbn [fst].
    exists ((if output_exists w then [ERemoveFile] else []) ++
            [ESdkOpen; EDiscover; EOpenCamera serial;
             ESetProp "frames_per_trigger_zero_for_unlimited" 0;
             ESetProp "image_poll_timeout_ms" 2000; EArm 2] ++
            (if is_color_camera w
             then [ECreateColorSdk; ECreateProcessor; ESetOutputFormat BGR_PIXEL]
             else []) ++
            [EOpenSink (image_width_pixels w) (image_height_pixels w)
               (is_color_camera w)]),
      (iterations w O k ++ exit_tail x ++ teardown_events w ++
       [ECloseCamera; ESdkClose]).
    split; [|split; [|split; [|split]]].
    + unfold setup_events.
      destruct (output_exists w), (is_color_camera w); reflexivity.
    + destruct (output_exists w), (is_color_camera w); reflexivity.
    + destruct (output_exists w), (is_color_camera w); reflexivity.
    + rewrite !filter_app, filter_iterations, filter_exit_tail by reflexivity.
      unfold teardown_events, log_error.
      destruct (is_color_camera w), (processor_dispose_error w),
        (color_sdk_dispose_error w); reflexivity.
    + rewrite !filter_app, filter_iterations, filter_exit_tail by reflexivity.
      unfold teardown_events, log_error.
      destruct (is_color_camera w), (processor_dispose_error w),
        (color_sdk_dispose_error w); reflexivity.
  - unfold trace_of, run.
    exists [ESdkOpen; EDiscover; EOpenCamera serial;
            ESetProp "exposure_time_us" 1000;
            ESetProp "frames_per_trigger_zero_for_unlimited" 0;
            ESetProp "image_poll_timeout_ms" 1000;
            ESetProp "frame_rate_control_value" 10;
            ESetProp "is_frame_rate_control_enabled" 1; EArm 2].
    destruct (main_cases w serial rest fuel E)
      as [[Hw H]|[(k & Hk & Hw & Hi & H)|[(k & buf & Hf & Hk & Hn & H)|
          (k & buf & m & Hf & Hk & Hm & Hn & Hp & H)]]];
      rewrite H; cbn [fst]; eexists;
      (split; [unfold video_setup_events; cbn [app]; reflexivity|]);
      (split; [reflexivity|]); (split; [reflexivity|]);
      split; live_view_trigger.
Qed.

(** ** Further concrete runs *)

Lemma world_color_two_frames : loop_exits world_color 2 O 2 Completed.
Proof.
  split; [|reflexivity].
  intros [|[|j]] Hj; [reflexivity | reflexivity | lia].
Defined.

Lemma world_dispose_errors_interrupted :
  loop_exits world_dispose_errors 3 O 1 Interrupted.
Proof.
  split; [|split; [lia | reflexivity]].
  intros [|j] Hj; [reflexivity | lia].
Defined.

Lemma previous_output_removed_first_witness :
  (output_exists world_mono = true /\ cameras world_mono <> [] /\
   cameras world_no_camera_stale = []) /\
  hd_error (trace_of (export_session world_mono 2)) = Some ERemoveFile /\
  precedes is_remove is_open_sink (trace_of (export_session world_mono 2)) = true /\
  filter is_remove (trace_of (export_session world_no_camera_stale 2)) =
    [ERemoveFile] /\
  filter is_open_sink (trace_of (export_session world_no_camera_stale 2)) = [].
Proof.
  assert (H1 : output_exists world_mono = true) by reflexivity.
  assert (H2 : cameras world_mono <> []) by discriminate.
  assert (H3 : cameras world_no_camera_stale = []) by reflexivity.
  pose proof (previous_output_removed_first world_mono 2) as (_ & Hh & _ & Hs).
  pose proof (previous_output_removed_first world_no_camera_stale 2)
    as (Hr & _ & Hn & _).
  split; [split; [exact H1 | split; [exact H2 | exact H3]]|].
  split; [exact (Hh H1)|]. split; [exact (proj2 (Hs H2) H1)|].
  split; [exact Hr | exact (Hn H3)].
Defined.

Lemma color_export_writes_transformed_frames_witness :
  (cameras world_color <> [] /\ camera_sensor_type world_color = BAYER /\
   loop_exits world_color 2 O 2 Completed) /\
  written (trace_of (export_session world_color 2)) =
    [[0; 0; 0; 1023; 1023; 1023; 512; 512; 512; 4; 4; 4];
     [7; 7; 7; 7; 7; 7; 7; 7; 7; 7; 7; 7]].
Proof.
  assert (H1 : cameras world_color <> []) by discriminate.
  assert (H2 : camera_sensor_type world_color = BAYER) by reflexivity.
  split; [split; [exact H1 | split; [exact H2 | exact world_color_two_frames]]|].
  exact (color_export_writes_transformed_frames world_color 2 2 Completed
           H1 H2 world_color_two_frames).
Defined.

Lemma export_never_exceeds_target_witness :
  cameras world_mono <> [] /\
  (List.length (written (trace_of (export_session world_mono 4))) <= 4)%nat /\
  (List.length (filter is_poll (trace_of (export_session world_mono 4))) <= 4)%nat.
Proof.
  assert (H1 : cameras world_mono <> []) by discriminate.
  pose proof (export_never_exceeds_target world_mono 4 H1) as (Hw & Hp & _).
  split; [exact H1 | split; [exact Hw | exact Hp]].
Defined.

Lemma disposal_errors_are_logged_only_witness :
  (cameras world_dispose_errors <> [] /\
   is_color_camera world_dispose_errors = true /\
   loop_exits world_dispose_errors 3 O 1 Interrupted) /\
  result_of (export_session world_dispose_errors 3) = Raise KeyboardInterrupt.
Proof.
  assert (H1 : cameras world_dispose_errors <> []) by discriminate.
  assert (H2 : is_color_camera world_dispose_errors = true) by reflexivity.
  split; [split; [exact H1 | split;
    [exact H2 | exact world_dispose_errors_interrupted]]|].
  exact (proj1 (disposal_errors_are_logged_only world_dispose_errors 3 1
                  Interrupted H1 H2 world_dispose_errors_interrupted)).
Defined.

Lemma export_interrupt_propagates_witness :
  (cameras world_dispose_errors <> [] /\ (1 < 3)%nat /\
   (forall j, (j < 1)%nat -> is_frame (polls world_dispose_errors j) = true) /\
   polls world_dispose_errors 1 = PInterrupt) /\
  result_of (export_session world_dispose_errors 3) = Raise KeyboardInterrupt /\
  filter is_disarm (trace_of (export_session world_dispose_errors 3)) = [EDisarm].
Proof.
  assert (H1 : cameras world_dispose_errors <> []) by discriminate.
  assert (H2 : (1 < 3)%nat) by lia.
  assert (H3 : forall j, (j < 1)%nat ->
                 is_frame (polls world_dispose_errors j) = true).
  { intros [|j] Hj; [reflexivity | lia]. }
  assert (H4 : polls world_dispose_errors 1 = PInterrupt) by reflexivity.
  pose proof (export_interrupt_propagates world_dispose_errors 3 1 H1 H2 H3 H4)
    as (Hr & _ & _ & Hd & _).
  split; [split; [exact H1 | split; [exact H2 | split; [exact H3 | exact H4]]]|].
  split; [exact Hr | exact Hd].
Defined.

Lemma scale_to_8bpp_monotone_unclamped_witness :
  (8 <= 10 /\ 512 <= 1023 /\ 2 ^ 10 <= 1024) /\
  scale_to_8bpp 10 512 <= scale_to_8bpp 10 1023 /\
  256 <= scale_to_8bpp 10 1024.
Proof.
  assert (H1 : 8 <= 10) by lia.
  assert (H2 : 512 <= 1023) by lia.
  assert (H3 : 2 ^ 10 <= 1024) by (cbn; lia).
  split; [split; [exact H1 | split; [exact H2 | exact H3]]|].
  split.
  - exact (proj1 (scale_to_8bpp_monotone_unclamped 10 512 1023 H1) H2).
  - exact (proj2 (proj2 (scale_to_8bpp_monotone_unclamped 10 1024 0 H1)) H3).
Defined.

Lemma export_depends_on_first_polls_only_witness :
  (forall j, (j < 2)%nat -> other_polls j = polls world_mono j) /\
  export_session (with_polls world_mono other_polls) 2 O =
  export_session world_mono 2 O.
Proof.
  assert (H : forall j, (j < 2)%nat -> other_polls j = polls world_mono j).
  { intros [|[|j]] Hj; [reflexivity | reflexivity | lia]. }
  split; [exact H|].
  exact (export_depends_on_first_polls_only world_mono other_polls 2 H).
Defined.

Lemma live_view_closes_what_it_opened_witness :
  result_of (main world_mono 6) <> Running /\
  filter is_lifecycle (trace_of (main world_mono 6)) =
    [ESdkOpen; EOpenCamera "camera0"; ECloseCamera; ESdkClose].
Proof.
  assert (H : result_of (main world_mono 6) <> Running) by discriminate.
  split; [exact H|].
  exact (proj1 (proj1 (live_view_closes_what_it_opened world_mono 6) H)).
Defined.

Lemma live_view_runs_until_interrupted_witness :
  cameras world_late <> [] /\
  (result_of (main world_late 4) = Running \/
   result_of (main world_late 4) = Ok tt \/
   result_of (main world_late 4) = Raise KeyboardInterrupt).
Proof.
  assert (H : cameras world_late <> []) by discriminate.
  split; [exact H|].
  exact (proj2 (live_view_runs_until_interrupted world_late H) 4%nat).
Defined.

Lemma live_view_disarms_on_caught_interrupt_witness :
  (cameras world_mono <> [] /\ result_of (main world_mono 6) = Ok tt) /\
  exists before,
    trace_of (main world_mono 6) =
      before ++
      [EPoll; EPrint "Interrupted by user."; EDisarm;
       EPrint "Camera disarmed. Exiting..."; EPlot "ioff"; EPlot "close";
       ECloseCamera; ESdkClose] /\
    filter is_disarm before = [] /\
    exists first_frame, In (EImshow first_frame) before.
Proof.
  assert (H1 : cameras world_mono <> []) by discriminate.
  assert (H2 : result_of (main world_mono 6) = Ok tt) by reflexivity.
  split; [split; [exact H1 | exact H2]|].
  exact (proj1 (live_view_disarms_on_caught_interrupt world_mono 6 H1) H2).
Defined.

Lemma interrupt_while_waiting_propagates_witness :
  (cameras world_interrupted_at_start <> [] /\
   result_of (main world_interrupted_at_start 3) = Raise KeyboardInterrupt) /\
  filter is_sink (trace_of (main world_interrupted_at_start 3)) = [].
Proof.
  assert (H1 : cameras world_interrupted_at_start <> []) by discriminate.
  assert (H2 : result_of (main world_interrupted_at_start 3) =
               Raise KeyboardInterrupt) by reflexivity.
  split; [split; [exact H1 | exact H2]|].
  exact (proj1 (proj2 (interrupt_while_waiting_propagates
                         world_interrupted_at_start 3 KeyboardInterrupt H1 H2))).
Defined.

Lemma one_arm_one_trigger_witness :
  cameras world_mono <> [] /\
  exists before after,
    trace_of (main world_mono 6) = before ++ ETrigger :: after /\
    filter is_arm before = [EArm 2] /\ filter is_poll before = [] /\
    filter is_arm after = [] /\ filter is_trigger after = [].
Proof.
  assert (H1 : cameras world_mono <> []) by discriminate.
  split; [exact H1|].
  exact (proj2 (one_arm_one_trigger world_mono 2 6 H1)).
Defined.
